(** * go-conversions: a shallow embedding of [main.go] and its properties

    The program generates Go source from a template, compiles it expecting
    "cannot convert" diagnostics, scrapes the diagnostics into a list of
    [ConversionFailure]s and prints a 19 x 19 report.

    Go strings are byte sequences: they are modelled as [string] (a list of
    [ascii] bytes).  A Go call that can return an error or panic is modelled
    with the three-way [result] type.  The operating system (clock, argv,
    file system, the external [go build] process) is the record [World]. *)

From Stdlib Require Import String Ascii List Arith Lia Bool.
From Stdlib Require DecimalString DecimalNat.
Import ListNotations.
Local Open Scope list_scope.
Local Open Scope string_scope.

(** ** Results of fallible Go code *)

(** A runtime panic; the only one the program can raise is an index out of
    range on a slice: [index] is the offending index, [len] the length. *)
Inductive panic : Type :=
| IndexOutOfRange (index len : nat).

(** A Go [error] value is represented by its [Error()] text. *)
Definition error := string.

Inductive result (A : Type) : Type :=
| Ok (a : A)
| Err (e : error)
| Panic (p : panic).

Arguments Ok {A} a.
Arguments Err {A} e.
Arguments Panic {A} p.

Definition bind {A B : Type} (r : result A) (f : A -> result B) : result B :=
  match r with
  | Ok a => f a
  | Err e => Err e
  | Panic p => Panic p
  end.

Notation "x <- r ;; k" := (bind r (fun x => k))
  (at level 61, r at next level, right associativity).

(** [errors.Wrap(err, message)]: the text is [message: err]. *)
Definition Wrap (err : error) (message : string) : error :=
  message ++ ": " ++ err.

(** The double quote character, as [%q] prints it around a string. *)
Definition dquote : string := String (ascii_of_nat 34) EmptyString.

(** The line feed, Go's ["\n"]. *)
Definition LF : ascii := ascii_of_nat 10.

(** ** Package [strings] *)

Module strings.

(** [strings.Contains(s, substr)]: [substr] occurs in [s] at some offset. *)
Fixpoint Contains (s substr : string) : bool :=
  if String.prefix substr s then true
  else match s with
       | EmptyString => false
       | String _ s' => Contains s' substr
       end.

(** [strings.Split(s, sep)] for the one-byte separator the program passes:
    [cur] is the piece being read, kept reversed.  The result always has
    one more piece than [s] has separators, so the empty string gives one
    empty piece. *)
Fixpoint split_from (s : string) (sep : ascii) (cur : list ascii) : list string :=
  match s with
  | EmptyString => [string_of_list_ascii (List.rev cur)]
  | String c s' =>
      if Ascii.eqb c sep
      then string_of_list_ascii (List.rev cur) :: split_from s' sep []
      else split_from s' sep (c :: cur)
  end.

Definition Split (s : string) (sep : ascii) : list string :=
  split_from s sep [].

End strings.

(** ** Package [unicode/utf8] *)

Module utf8.

Definition between (lo hi b : nat) : bool := Nat.leb lo b && Nat.leb b hi.

(** A continuation byte, [locb..hicb]. *)
Definition cont (b : nat) : bool := between 128 191 b.

(** The [first] table with its accept ranges: for a leading byte, the
    encoded size and the range allowed for the second byte; [None] for a
    byte that cannot start a multi-byte sequence ([as] and [xx]). *)
Definition first (b0 : nat) : option (nat * (nat * nat)) :=
  if between 194 223 b0 then Some (2, (128, 191))
  else if Nat.eqb b0 224 then Some (3, (160, 191))
  else if between 225 236 b0 then Some (3, (128, 191))
  else if Nat.eqb b0 237 then Some (3, (128, 159))
  else if between 238 239 b0 then Some (3, (128, 191))
  else if Nat.eqb b0 240 then Some (4, (144, 191))
  else if between 241 243 b0 then Some (4, (128, 191))
  else if Nat.eqb b0 244 then Some (4, (128, 143))
  else None.

Definition byte_at (s : string) (i : nat) : option nat :=
  option_map nat_of_ascii (String.get i s).

Definition ok_at (s : string) (i : nat) (p : nat -> bool) : bool :=
  match byte_at s i with Some b => p b | None => false end.

(** The width returned by [utf8.DecodeRuneInString(s)] for a non-empty
    [s]: the size of a well-formed encoding, and [1] for ASCII and for
    every malformed or truncated sequence ([RuneError, 1]). *)
Definition width (s : string) : nat :=
  match byte_at s 0 with
  | None => 0
  | Some b0 =>
      match first b0 with
      | None => 1
      | Some (size, (lo, hi)) =>
          if negb (ok_at s 1 (between lo hi)) then 1
          else if Nat.eqb size 2 then 2
          else if negb (ok_at s 2 cont) then 1
          else if Nat.eqb size 3 then 3
          else if negb (ok_at s 3 cont) then 1
          else 4
      end
  end.

Fixpoint drop (n : nat) (s : string) : string :=
  match n, s with
  | S n', String _ s' => drop n' s'
  | _, _ => s
  end.

(** The runes of [s] in order, each as the bytes that encode it: what a
    loop of [DecodeRuneInString] from offset 0 sees.  [fuel] bounds the
    number of runes by the number of bytes. *)
Fixpoint runes_fuel (fuel : nat) (s : string) : list string :=
  match fuel, s with
  | S fuel', String _ _ =>
      let w := width s in
      String.substring 0 w s :: runes_fuel fuel' (drop w s)
  | _, _ => []
  end.

Definition runes (s : string) : list string := runes_fuel (String.length s) s.

(** [utf8.RuneCountInString]. *)
Definition RuneCountInString (s : string) : nat := List.length (runes s).

End utf8.

(** ** Package [regexp] *)

Module regexp.

(** The operators of [regexp/syntax] that the program's pattern uses. *)
Inductive Regexp : Type :=
| Literal (c : ascii)
| AnyCharNotNL
| Plus (r : Regexp)
| Concat (r1 r2 : Regexp)
| Capture (i : nat) (r : Regexp).

Definition rune := string.
Definition Caps := list (nat * string).

Definition get_cap (i : nat) (caps : Caps) : string :=
  match find (fun p => Nat.eqb (fst p) i) caps with
  | Some (_, v) => v
  | None => EmptyString
  end.

(** The text between two positions of the input, the later one given by
    what is left of the input there. *)
Definition consumed (s rest : list rune) : string :=
  String.concat EmptyString (firstn (List.length s - List.length rest) s).

(** Backtracking matcher with leftmost-first preference, as Go's engines
    implement it: [run r s caps k] matches [r] at the head of [s] and
    hands the rest of the input to [k]; a failure of [k] makes [r] try its
    next alternative.  [Plus] is greedy: after one iteration it prefers
    another one to leaving the loop.  An iteration that consumes nothing
    does not loop again. *)
Fixpoint run (r : Regexp) (s : list rune) (caps : Caps)
    (k : list rune -> Caps -> option (list rune * Caps))
    {struct r} : option (list rune * Caps) :=
  match r with
  | Literal c =>
      match s with
      | x :: s' => if String.eqb x (String c EmptyString) then k s' caps else None
      | [] => None
      end
  | AnyCharNotNL =>
      match s with
      | x :: s' => if String.eqb x (String LF EmptyString) then None else k s' caps
      | [] => None
      end
  | Concat r1 r2 => run r1 s caps (fun s1 caps1 => run r2 s1 caps1 k)
  | Capture i r' =>
      run r' s caps (fun s' caps' => k s' ((i, consumed s s') :: caps'))
  | Plus r' =>
      (fix loop (fuel : nat) (s : list rune) (caps : Caps) {struct fuel} :=
         match fuel with
         | O => None
         | S fuel' =>
             run r' s caps (fun s' caps' =>
               if Nat.ltb (List.length s') (List.length s) then
                 match loop fuel' s' caps' with
                 | Some m => Some m
                 | None => k s' caps'
                 end
               else k s' caps')
         end) (S (List.length s)) s caps
  end.

Fixpoint NumSubexp (r : Regexp) : nat :=
  match r with
  | Literal _ | AnyCharNotNL => 0
  | Plus r' => NumSubexp r'
  | Concat r1 r2 => NumSubexp r1 + NumSubexp r2
  | Capture _ r' => S (NumSubexp r')
  end.

(** The leftmost match: the first start offset, from the left, at which
    [run] succeeds. *)
Fixpoint search (r : Regexp) (s : list rune) : option (string * Caps) :=
  match run r s [] (fun rest caps => Some (rest, caps)) with
  | Some (rest, caps) => Some (consumed s rest, caps)
  | None =>
      match s with
      | [] => None
      | _ :: s' => search r s'
      end
  end.

(** [re.FindStringSubmatch(s)]: the whole match followed by the text of
    each group, or [nil] (the empty list) when there is no match. *)
Definition FindStringSubmatch (re : Regexp) (s : string) : list string :=
  match search re (utf8.runes s) with
  | Some (whole, caps) =>
      whole :: map (fun i => get_cap i caps) (seq 1 (NumSubexp re))
  | None => []
  end.

Definition lits (s : string) : list Regexp :=
  map Literal (list_ascii_of_string s).

Fixpoint concat_all (r : Regexp) (rs : list Regexp) : Regexp :=
  match rs with
  | [] => r
  | r' :: rs' => Concat r (concat_all r' rs')
  end.

End regexp.

(** ** Package [fmt]: the verbs the program uses *)

Module fmt.

Fixpoint spaces (n : nat) : string :=
  match n with
  | O => EmptyString
  | S n' => " " ++ spaces n'
  end.

(** [%Ns]: right-justified in a field of [width] runes. *)
Definition pad_left (width : nat) (s : string) : string :=
  spaces (width - utf8.RuneCountInString s) ++ s.

(** [%-Ns]: left-justified in a field of [width] runes. *)
Definition pad_right (width : nat) (s : string) : string :=
  s ++ spaces (width - utf8.RuneCountInString s).

(** [%d] of a non-negative integer. *)
Definition itoa (n : nat) : string :=
  DecimalString.NilEmpty.string_of_uint (Nat.to_uint n).

(** [%q] of a string with nothing to escape. *)
Definition quote (s : string) : string := dquote ++ s ++ dquote.

End fmt.

(** ** The program's constants and types *)

(** [TemplateFile] is the location of the template file to be generated. *)
Definition TemplateFile : string := "./template/conversions.tmpl".

(** [OutputFile] is the location to put the generated go code. *)
Definition OutputFile : string := "./output/conversions.go".

(** [ConversionFailure] marries the two types in a conversion failure as
    reported by the go compiler. *)
Record ConversionFailure : Type := {
  From : string;
  To : string
}.

Definition ConversionFailures := list ConversionFailure.

(** [Primitives] contains the list of all primitives in golang. *)
Definition Primitives : list string := [
  "bool";
  "uint8";
  "uint16";
  "uint32";
  "uint64";
  "int8";
  "int16";
  "int32";
  "int64";
  "float32";
  "float64";
  "complex64";
  "complex128";
  "string";
  "int";
  "uint";
  "uintptr";
  "byte";
  "rune"
].

(** ** Package [os]: writing to the created file *)

Module os.

(** How far the created file can be written.  [None]: every write
    succeeds.  [Some (room, err)]: the file takes [room] bytes and no more
    (a full disk, a quota); the write that would go beyond writes the bytes
    that fit and fails with [err]. *)
Definition Limit : Type := option (nat * error).

(** [f.Write(b)] on a file that holds [content]: the new content and the
    error of the write, if any. *)
Definition Write (limit : Limit) (content b : string) : string * option error :=
  match limit with
  | None => (content ++ b, None)
  | Some (room, err) =>
      if Nat.leb (String.length content + String.length b) room
      then (content ++ b, None)
      else (content ++ substring 0 (room - String.length content) b, Some err)
  end.

End os.

(** ** Package [text/template]

    The template file [./template/conversions.tmpl] is read at run time and
    is not part of the sources at hand, so the parsed template is a
    parameter of a run (see [World]).  Nothing is assumed about its text:
    a parsed template is given by what its execution does with the data,
    step by step.  It evaluates a field of the data and goes on according
    to the value (an action that prints the field, a condition or a
    pipeline over it, a range over the catalog), it writes to the output,
    and it ends at the end of the template or with an error of its own (a
    field the data does not have, a failing function call). *)

Module template.

(** The local [Data] struct of [Generate]. *)
Record Data : Type := {
  Now : string;
  App : string;
  Primitives : list string
}.

Inductive Template : Type :=
| Done                                            (* the end of the template *)
| Fail (err : error)                              (* the execution stops with its own error *)
| Write (text : string) (next : Template)         (* one write to the output *)
| GetNow (next : string -> Template)              (* evaluates [.Now] *)
| GetApp (next : string -> Template)              (* evaluates [.App] *)
| GetPrimitives (next : list string -> Template). (* evaluates [.Primitives] *)

(** [t.Execute(f, data)] on a file that holds [content]: the content of
    the file afterwards and the error returned, if any.  The execution
    stops at the first write that fails and returns the error of the
    write. *)
Fixpoint Execute (t : Template) (data : Data) (limit : os.Limit) (content : string)
    : string * option error :=
  match t with
  | Done => (content, None)
  | Fail err => (content, Some err)
  | Write text next =>
      match os.Write limit content text with
      | (content', None) => Execute next data limit content'
      | (content', Some err) => (content', Some err)
      end
  | GetNow next => Execute (next (Now data)) data limit content
  | GetApp next => Execute (next (App data)) data limit content
  | GetPrimitives next => Execute (next (Primitives data)) data limit content
  end.

(** The execution of the template evaluates neither [.Now] nor [.App],
    whatever the catalog is. *)
Inductive catalog_only : Template -> Prop :=
| catalog_only_Done : catalog_only Done
| catalog_only_Fail : forall err, catalog_only (Fail err)
| catalog_only_Write : forall text next,
    catalog_only next -> catalog_only (Write text next)
| catalog_only_GetPrimitives : forall next,
    (forall primitives, catalog_only (next primitives)) ->
    catalog_only (GetPrimitives next).

End template.

(** ** Package [os/exec] *)

Module exec.

(** How the external process ended, as [cmd.Run()] sees it. *)
Inductive Outcome : Type :=
| Exited (status : nat)            (* ran to completion with this exit status *)
| Signaled (signal : string)       (* terminated by a signal *)
| NotFound (cause : string)        (* the program was not found: an [*exec.Error] *)
| NotStarted (path cause : string). (* fork/exec failed: an [*os.PathError] *)

(** The error returned by [cmd.Run()], by its [Error()] text: [nil] for
    exit status 0, an [*ExitError] printing the process state for another
    status or a signal, and the error of the failed start otherwise. *)
Definition Run (name : string) (o : Outcome) : option error :=
  match o with
  | Exited O => None
  | Exited status => Some ("exit status " ++ fmt.itoa status)
  | Signaled signal => Some ("signal: " ++ signal)
  | NotFound cause => Some ("exec: " ++ fmt.quote name ++ ": " ++ cause)
  | NotStarted path cause => Some ("fork/exec " ++ path ++ ": " ++ cause)
  end.

End exec.

(** ** The world of one run *)

Record World : Type := {
  (** [template.ParseFiles(TemplateFile)] *)
  parsed_template : template.Template + error;
  (** the error of [os.Create(OutputFile)], if any *)
  create_error : option error;
  (** how far the created file can be written *)
  write_limit : os.Limit;
  (** [time.Now().Format(time.RFC3339)] *)
  now : string;
  (** [os.Args[0]] *)
  args0 : string;
  (** what the [go build] process does *)
  build_outcome : exec.Outcome;
  (** what it writes to its standard error *)
  build_stderr : string
}.

(** What a run leaves behind: the content of [OutputFile] ([None] while it
    has not been created) and the messages logged at info level, oldest
    first. *)
Record Effects : Type := {
  output_file : option string;
  logged : list string
}.

Definition no_effects : Effects := {| output_file := None; logged := [] |}.

(** [s[i]] on a slice. *)
Definition index (s : list string) (i : nat) : result string :=
  match nth_error s i with
  | Some x => Ok x
  | None => Panic (IndexOutOfRange i (List.length s))
  end.

(** ** [Generate] *)

(** [Generate] executes the template and generates the go code for it: the
    template is parsed, the output file is created (and so emptied), and
    the template is executed into it with the time of the run, the name of
    the program and the catalog as data.  An error of the execution, the
    template's own or that of a failed write, leaves in the file what was
    written until then. *)
Definition Generate (w : World) (fx : Effects) : result unit * Effects :=
  match parsed_template w with
  | inr err =>
      (Err (Wrap err ("parsing template file " ++ fmt.quote TemplateFile)), fx)
  | inl t =>
      match create_error w with
      | Some err =>
          (Err (Wrap err ("creating output file " ++ fmt.quote OutputFile)), fx)
      | None =>
          let data := {| template.Now := now w;
                         template.App := args0 w;
                         template.Primitives := Primitives |} in
          match template.Execute t data (write_limit w) EmptyString with
          | (content, Some err) =>
              (Err (Wrap err "executing template"),
               {| output_file := Some content; logged := logged fx |})
          | (content, None) =>
              (Ok tt, {| output_file := Some content; logged := logged fx |})
          end
      end
  end.

(** ** [Compile] *)

(** The compiled pattern [".+ p.(.+) \\(.+\\) to type (.+)"]. *)
Definition re : regexp.Regexp :=
  regexp.concat_all (regexp.Plus regexp.AnyCharNotNL)
    (regexp.lits " p"
     ++ [regexp.AnyCharNotNL; regexp.Capture 1 (regexp.Plus regexp.AnyCharNotNL)]
     ++ regexp.lits " ("
     ++ [regexp.Plus regexp.AnyCharNotNL]
     ++ regexp.lits ") to type "
     ++ [regexp.Capture 2 (regexp.Plus regexp.AnyCharNotNL)])%list.

(** The first loop of [Compile]: the lines that contain "cannot convert",
    in order. *)
Fixpoint conversion_lines (stderrLines : list string) : list string :=
  match stderrLines with
  | [] => []
  | stderrLine :: rest =>
      if strings.Contains stderrLine "cannot convert"
      then stderrLine :: conversion_lines rest
      else conversion_lines rest
  end.

(** The second loop of [Compile]: each line is matched and the two groups
    are taken by index, with no check that there was a match; the pair is
    appended to [cfs]. *)
Fixpoint extract (conversionErrs : list string) (cfs : ConversionFailures)
    : result ConversionFailures :=
  match conversionErrs with
  | [] => Ok cfs
  | conversionErr :: rest =>
      let matches := regexp.FindStringSubmatch re conversionErr in
      from <- index matches 1 ;;
      to <- index matches 2 ;;
      extract rest (cfs ++ [{| From := from; To := to |}])%list
  end.

(** [Compile] compiles the generated go code located at [OutputFile],
    expecting it to fail compilation and throw errors.  It records these
    compilation errors into a [ConversionFailures] and returns them. *)
Definition Compile (w : World) : result ConversionFailures :=
  let command := "go build -gcflags=-e -o /dev/null " ++ OutputFile in
  let pieces := strings.Split command " " in
  program <- index pieces 0 ;;
  let err := exec.Run program (build_outcome w) in
  match err with
  | Some e =>
      if negb (String.eqb e "exit status 2")
      then Err (Wrap e "unexpected error while running compilation command")
      else extract (conversion_lines (strings.Split (build_stderr w) LF)) []
  | None => extract (conversion_lines (strings.Split (build_stderr w) LF)) []
  end.

(** ** [Contains] and [Report] *)

(** [Contains] determines if [cfs] contains a [ConversionFailure] that has
    its [From] set to [from] and [To] set to [to]. *)
Fixpoint Contains (cfs : ConversionFailures) (from to : string) : bool :=
  match cfs with
  | [] => false
  | conversionFailure :: rest =>
      if String.eqb (From conversionFailure) from && String.eqb (To conversionFailure) to
      then true
      else Contains rest from to
  end.

Definition convertible : string := "✅".
Definition not_convertible : string := "❌".

(** ["---------- converting %s values ----------\n"] *)
Definition header_line (outerPrimitive : string) : string :=
  "---------- converting " ++ outerPrimitive ++ " values ----------"
  ++ String LF EmptyString.

(** ["%10s -> %-10s %s "] *)
Definition verdict_line (outerPrimitive innerPrimitive compatible : string) : string :=
  fmt.pad_left 10 outerPrimitive ++ " -> " ++ fmt.pad_right 10 innerPrimitive
  ++ " " ++ compatible ++ " ".

(** The inner loop of [Report]: one line per [innerPrimitive]. *)
Fixpoint Report_inner (cfs : ConversionFailures) (outerPrimitive : string)
    (inner : list string) : list string :=
  match inner with
  | [] => []
  | innerPrimitive :: rest =>
      let compatible :=
        if negb (Contains cfs outerPrimitive innerPrimitive)
        then convertible else not_convertible in
      verdict_line outerPrimitive innerPrimitive compatible
      :: Report_inner cfs outerPrimitive rest
  end.

(** The outer loop of [Report]: a header, then the block of the inner
    loop, per [outerPrimitive]. *)
Fixpoint Report_outer (cfs : ConversionFailures) (outer : list string) : list string :=
  match outer with
  | [] => []
  | outerPrimitive :: rest =>
      (header_line outerPrimitive :: Report_inner cfs outerPrimitive Primitives)
      ++ Report_outer cfs rest
  end%list.

(** The messages [Report] logs, in order. *)
Definition Report_lines (cfs : ConversionFailures) : list string :=
  Report_outer cfs Primitives.

(** [Report] iterates over every primitive type against every primitive
    type and reports if a [ConversionFailure] exists for that conversion or
    not.  It always returns [nil]. *)
Definition Report (cfs : ConversionFailures) (fx : Effects) : result unit * Effects :=
  (Ok tt, {| output_file := output_file fx;
             logged := (logged fx ++ Report_lines cfs)%list |}).

(** ** [Main] *)

(** [Main] is the main driver function for this application. *)
Definition Main (w : World) (fx : Effects) : result unit * Effects :=
  match Generate w fx with
  | (Err err, fx1) => (Err (Wrap err "generating"), fx1)
  | (Panic p, fx1) => (Panic p, fx1)
  | (Ok _, fx1) =>
      match Compile w with
      | Err err => (Err (Wrap err "compiling"), fx1)
      | Panic p => (Panic p, fx1)
      | Ok cfs =>
          match Report cfs fx1 with
          | (Err err, fx2) => (Err (Wrap err "reporting results"), fx2)
          | (Panic p, fx2) => (Panic p, fx2)
          | (Ok _, fx2) => (Ok tt, fx2)
          end
      end
  end.

(** The mark [Report] chooses for a pair. *)
Definition marker (cfs : ConversionFailures) (from to : string) : string :=
  if negb (Contains cfs from to) then convertible else not_convertible.

(** ** Vocabulary for the statements about [Compile] *)

(** The build ended in one of the two ways after which [Compile] goes on
    to read the diagnostics: exit status 2, or exit status 0. *)
Definition proceeds (o : exec.Outcome) : Prop :=
  o = exec.Exited 2 \/ o = exec.Exited 0.

(** The lines of the diagnostic text that carry the marker. *)
Definition marked_lines (w : World) : list string :=
  conversion_lines (strings.Split (build_stderr w) LF).

(** The line contains the marker. *)
Definition has_marker (line : string) : bool :=
  strings.Contains line "cannot convert".

(** The pattern matches somewhere in the line. *)
Definition matched (line : string) : Prop :=
  regexp.FindStringSubmatch re line <> [].

(** The pair the two groups of the match give. *)
Definition pair_of_line (line : string) : ConversionFailure :=
  {| From := nth 1 (regexp.FindStringSubmatch re line) EmptyString;
     To := nth 2 (regexp.FindStringSubmatch re line) EmptyString |}.

(** ** Sample runs

    A template in the shape the program expects (a header naming the
    program and the time, then one conversion per ordered pair), and a
    world around a given end of the build and a given diagnostic text. *)

Fixpoint write_each (texts : list string) (next : template.Template)
    : template.Template :=
  match texts with
  | [] => next
  | text :: rest => template.Write text (write_each rest next)
  end.

Definition conversion_statement (from to : string) : string :=
  String LF "{ var p_" ++ from ++ " " ++ from ++ "; _ = " ++ to ++ "(p_" ++ from ++ ") }".

Definition example_template : template.Template :=
  template.Write "// generated by "
  (template.GetApp (fun app => template.Write app
  (template.Write " at "
  (template.GetNow (fun timestamp => template.Write timestamp
  (template.Write (String LF "package main" ++ String LF "func main() {")
  (template.GetPrimitives (fun primitives =>
     write_each
       (flat_map (fun from => map (conversion_statement from) primitives) primitives)
       (template.Write (String LF "}") template.Done))))))))).

Definition example_world (timestamp : string) (outcome : exec.Outcome)
    (diagnostics : string) : World :=
  {| parsed_template := inl example_template;
     create_error := None;
     write_limit := None;
     now := timestamp;
     args0 := "./go-conversions";
     build_outcome := outcome;
     build_stderr := diagnostics |}.

(** The output of a build: the package line, three diagnostics of which
    the first and the last are the same, and the empty text after the
    last line feed. *)
Definition example_diagnostics : list string :=
  ["# command-line-arguments";
   "./output/conversions.go:9:6: cannot convert p_bool (variable of type bool) to type uint8";
   "./output/conversions.go:31:6: cannot convert p_string (variable of type string) to type bool";
   "./output/conversions.go:9:6: cannot convert p_bool (variable of type bool) to type uint8";
   EmptyString].

(** ** The entry point *)

Module filepath.

(** The path without its trailing slashes, on the reversed path. *)
Fixpoint strip_trailing (rpath : list ascii) : list ascii :=
  match rpath with
  | c :: rest => if Ascii.eqb c "/" then strip_trailing rest else rpath
  | [] => []
  end.

(** The bytes after the last slash, on the reversed path. *)
Fixpoint last_element (rpath : list ascii) : list ascii :=
  match rpath with
  | c :: rest => if Ascii.eqb c "/" then [] else c :: last_element rest
  | [] => []
  end.

(** [filepath.Base(path)] with [/] as the separator: the last element of
    the path, after removing trailing slashes; ["."] for the empty path and
    ["/"] for a path of slashes only. *)
Definition Base (path : string) : string :=
  match path with
  | EmptyString => "."
  | _ =>
      match last_element (strip_trailing (List.rev (list_ascii_of_string path))) with
      | [] => "/"
      | relem => string_of_list_ascii (List.rev relem)
      end
  end.

End filepath.

(** How the process ends. *)
Inductive Exit : Type :=
| Returned                   (* [main] returned: exit status 0 *)
| Fatal (message : string)   (* [logrus.Fatal]: the message is logged at
                                fatal level and the process exits with
                                status 1, deferred calls not run *)
| Crashed (p : panic).       (* a panic left [main], after its deferred
                                calls: exit status 2 *)

(** [logrus.Info] and [logrus.Infof]: one more message in the log. *)
Definition Info (fx : Effects) (message : string) : Effects :=
  {| output_file := output_file fx; logged := (logged fx ++ [message])%list |}.

(** [main] is only responsible for calling [Main] and some other
    boilerplate code setup.  [elapsed] is the text [%v] prints for
    [time.Since(start)] when the deferred function runs. *)
Definition main (w : World) (elapsed : string) (fx : Effects) : Exit * Effects :=
  let fx0 := Info fx "starting" in
  match Main w fx0 with
  | (Err err, fx1) => (Fatal (Wrap err (filepath.Base (args0 w))), fx1)
  | (Panic p, fx1) => (Crashed p, Info fx1 ("execution took " ++ elapsed))
  | (Ok _, fx1) => (Returned, Info (Info fx1 "done") ("execution took " ++ elapsed))
  end.

(** ** What the pattern accepts

    [Matches r m caps caps']: the runes [m] are a match of [r], and the
    groups of [r] add their texts to [caps], giving [caps']. *)

Inductive Matches : regexp.Regexp -> list regexp.rune -> regexp.Caps -> regexp.Caps -> Prop :=
| Matches_Literal : forall c caps,
    Matches (regexp.Literal c) [String c EmptyString] caps caps
| Matches_AnyCharNotNL : forall x caps,
    x <> String LF EmptyString ->
    Matches regexp.AnyCharNotNL [x] caps caps
| Matches_Concat : forall r1 r2 m1 m2 caps caps1 caps2,
    Matches r1 m1 caps caps1 ->
    Matches r2 m2 caps1 caps2 ->
    Matches (regexp.Concat r1 r2) (m1 ++ m2)%list caps caps2
| Matches_Capture : forall i r m caps caps1,
    Matches r m caps caps1 ->
    Matches (regexp.Capture i r) m caps ((i, String.concat EmptyString m) :: caps1)
| Matches_Plus_once : forall r m caps caps1,
    Matches r m caps caps1 ->
    Matches (regexp.Plus r) m caps caps1
| Matches_Plus_more : forall r m1 m2 caps caps1 caps2,
    Matches r m1 caps caps1 ->
    Matches (regexp.Plus r) m2 caps1 caps2 ->
    Matches (regexp.Plus r) (m1 ++ m2)%list caps caps2.

(** The loop of [regexp.run] for [Plus r], by name. *)
Definition plus_loop (r : regexp.Regexp)
    (k : list regexp.rune -> regexp.Caps -> option (list regexp.rune * regexp.Caps))
    : nat -> list regexp.rune -> regexp.Caps -> option (list regexp.rune * regexp.Caps) :=
  fix loop (fuel : nat) (s : list regexp.rune) (caps : regexp.Caps) {struct fuel} :=
    match fuel with
    | O => None
    | S fuel' =>
        regexp.run r s caps (fun s' caps' =>
          if Nat.ltb (List.length s') (List.length s) then
            match loop fuel' s' caps' with
            | Some m => Some m
            | None => k s' caps'
            end
          else k s' caps')
    end.

(** Every match of [r] has at least one rune. *)
Fixpoint consuming (r : regexp.Regexp) : bool :=
  match r with
  | regexp.Literal _ | regexp.AnyCharNotNL => true
  | regexp.Plus r' => consuming r'
  | regexp.Concat r1 r2 => consuming r1 || consuming r2
  | regexp.Capture _ r' => consuming r'
  end.

(** Every repeated part of [r] is consuming. *)
Fixpoint plus_consuming (r : regexp.Regexp) : bool :=
  match r with
  | regexp.Literal _ | regexp.AnyCharNotNL => true
  | regexp.Plus r' => consuming r' && plus_consuming r'
  | regexp.Concat r1 r2 => plus_consuming r1 && plus_consuming r2
  | regexp.Capture _ r' => plus_consuming r'
  end.

(** A text of ASCII bytes without a line feed. *)
Definition plain (s : string) : Prop :=
  Forall (fun c => nat_of_ascii c < 128 /\ c <> LF) (list_ascii_of_string s).

(** The runes of a text of ASCII bytes: one per byte. *)
Definition ascii_runes (s : string) : list regexp.rune :=
  map (fun c => String c EmptyString) (list_ascii_of_string s).

(** The byte [c] does not occur in [s]. *)
Definition without (c : ascii) (s : string) : Prop :=
  ~ In c (list_ascii_of_string s).

(** The pattern from its first group on, from the [" ("] on, and from the
    [")"] on. *)
Definition re_from_type : regexp.Regexp :=
  regexp.concat_all (regexp.Literal ")")
    (regexp.lits " to type " ++ [regexp.Capture 2 (regexp.Plus regexp.AnyCharNotNL)])%list.

Definition re_from_paren : regexp.Regexp :=
  regexp.Concat (regexp.Literal " ")
    (regexp.Concat (regexp.Literal "(")
       (regexp.Concat (regexp.Plus regexp.AnyCharNotNL) re_from_type)).

Definition re_from_group : regexp.Regexp :=
  regexp.Concat (regexp.Capture 1 (regexp.Plus regexp.AnyCharNotNL)) re_from_paren.

(** The runes of a matching line from the [")"] on, from the [" ("] on and
    from the [" p"] on, given the runes of the two groups and of the
    description between the parentheses. *)
Definition tail_type (T : list regexp.rune) : list regexp.rune :=
  ")" :: " " :: "t" :: "o" :: " " :: "t" :: "y" :: "p" :: "e" :: " " :: T.

Definition tail_paren (B T : list regexp.rune) : list regexp.rune :=
  " " :: "(" :: (B ++ tail_type T)%list.

Definition tail_var (X : regexp.rune) (F B T : list regexp.rune) : list regexp.rune :=
  " " :: "p" :: X :: (F ++ tail_paren B T)%list.

(** The continuation [regexp.search] gives to [regexp.run]. *)
Definition found (rest : list regexp.rune) (caps : regexp.Caps)
    : option (list regexp.rune * regexp.Caps) :=
  Some (rest, caps).

(** A diagnostic of the compiler for the conversion of the variable
    [p_from], declared with type [from] and described as [described], to the
    type [to], at the position [position]. *)
Definition diagnostic (position from described to : string) : string :=
  position ++ ": cannot convert p_" ++ from ++ " (" ++ described ++ ") to type " ++ to.

(** A line of the compiler's output: a conversion diagnostic, or any other
    text. *)
Inductive Line : Type :=
| Other (text : string)
| Conversion (position from described to : string).

Definition render (l : Line) : string :=
  match l with
  | Other text => text
  | Conversion position from described to => diagnostic position from described to
  end.

(** The lines the extraction is written for: another text has no line
    feed and no "cannot convert"; a diagnostic is ASCII without line feed,
    names two types without spaces and parentheses, and describes the
    variable without an opening parenthesis. *)
Definition expected (l : Line) : Prop :=
  match l with
  | Other text => without LF text /\ strings.Contains text "cannot convert" = false
  | Conversion position from described to =>
      plain (diagnostic position from described to)
      /\ from <> EmptyString /\ described <> EmptyString /\ to <> EmptyString
      /\ without " " from /\ without "(" from /\ without "(" described
      /\ without "(" to /\ without ")" to
  end.

(** The failures a list of lines reports, in order. *)
Fixpoint failures (ls : list Line) : ConversionFailures :=
  match ls with
  | [] => []
  | Other _ :: rest => failures rest
  | Conversion _ from _ to :: rest => {| From := from; To := to |} :: failures rest
  end.

(** * Properties *)

(** ** Facts about strings *)

Lemma append_inv_head : forall p a b : string, p ++ a = p ++ b -> a = b.
Proof.
  induction p as [|c p IH]; simpl; intros a b H.
  - exact H.
  - injection H as H. now apply IH.
Qed.

Lemma append_split_same_length :
  forall a a' x y : string,
    String.length a = String.length a' -> a ++ x = a' ++ y -> a = a' /\ x = y.
Proof.
  induction a as [|c a IH]; destruct a' as [|c' a']; simpl; intros x y Hl H;
    try discriminate.
  - now split.
  - injection H as Hc H. injection Hl as Hl.
    destruct (IH a' x y Hl H) as [-> ->]. now subst.
Qed.

Lemma append_assoc : forall a b c : string, (a ++ b) ++ c = a ++ b ++ c.
Proof.
  induction a as [|x a IH]; simpl; intros b c; [reflexivity|].
  now rewrite IH.
Qed.

(** ** The library models behave as their Go originals *)

Lemma prefix_iff :
  forall p s, String.prefix p s = true <-> exists rest, s = p ++ rest.
Proof.
  induction p as [|a p IH]; intros [|b s]; simpl.
  - split; [intros _; now exists EmptyString | reflexivity].
  - split; [intros _; now exists (String b s) | reflexivity].
  - split; [discriminate | intros (rest & H); discriminate H].
  - destruct (ascii_dec a b) as [<- | Hne].
    + rewrite IH. split; intros (rest & H); exists rest.
      * now rewrite H.
      * now injection H.
    + split; [discriminate | intros (rest & H)].
      injection H as H1 H2. now subst.
Qed.

(** [strings.Contains] holds exactly when the text occurs in the line. *)
Lemma strings_Contains_iff :
  forall s substr,
    strings.Contains s substr = true <-> exists a b, s = a ++ substr ++ b.
Proof.
  induction s as [|c s IH]; intros substr; cbn [strings.Contains].
  - destruct (String.prefix substr EmptyString) eqn:E.
    + apply prefix_iff in E as (rest & E). split; [|reflexivity].
      intros _. now exists EmptyString, rest.
    + split; [discriminate|]. intros ([|x a] & b & H).
      * assert (P : String.prefix substr EmptyString = true) by (apply prefix_iff; now exists b).
        congruence.
      * discriminate H.
  - destruct (String.prefix substr (String c s)) eqn:E.
    + apply prefix_iff in E as (rest & E). split; [|reflexivity].
      intros _. now exists EmptyString, rest.
    + rewrite IH. split.
      * intros (a & b & H). exists (String c a), b. now rewrite H.
      * intros ([|x a] & b & H).
        -- assert (P : String.prefix substr (String c s) = true)
             by (apply prefix_iff; now exists b).
           congruence.
        -- injection H as _ H. now exists a, b.
Qed.

Lemma string_of_rev_cons :
  forall c cur,
    string_of_list_ascii (List.rev (c :: cur))
    = string_of_list_ascii (List.rev cur) ++ String c EmptyString.
Proof.
  intros c cur. cbn [List.rev].
  induction (List.rev cur) as [|x l IH]; [reflexivity|].
  cbn. now rewrite IH.
Qed.

Lemma split_from_not_nil :
  forall s sep cur, strings.split_from s sep cur <> [].
Proof.
  induction s as [|c s IH]; intros sep cur; cbn [strings.split_from].
  - discriminate.
  - destruct (Ascii.eqb c sep); [discriminate | apply IH].
Qed.

Lemma split_from_join :
  forall s sep cur,
    String.concat (String sep EmptyString) (strings.split_from s sep cur)
    = string_of_list_ascii (List.rev cur) ++ s.
Proof.
  induction s as [|c s IH]; intros sep cur; cbn [strings.split_from].
  - cbn [String.concat].
    induction (string_of_list_ascii (List.rev cur)) as [|x l IHl]; cbn; congruence.
  - destruct (Ascii.eqb_spec c sep) as [-> | Hne].
    + cbn [String.concat].
      destruct (strings.split_from s sep []) eqn:E.
      * now apply split_from_not_nil in E.
      * rewrite <- E, IH. reflexivity.
    + rewrite IH, string_of_rev_cons, append_assoc. reflexivity.
Qed.

(** Joining the pieces of [strings.Split] with the separator gives the
    text back. *)
Lemma strings_Split_join :
  forall s sep, String.concat (String sep EmptyString) (strings.Split s sep) = s.
Proof.
  intros s sep. unfold strings.Split. now rewrite split_from_join.
Qed.

Lemma substring_drop :
  forall n s, String.substring 0 n s ++ utf8.drop n s = s.
Proof.
  induction n as [|n IH]; intros [|c s]; cbn; try reflexivity.
  now rewrite IH.
Qed.

Lemma width_positive :
  forall c s, 1 <= utf8.width (String c s).
Proof.
  intros c s. unfold utf8.width. cbn [utf8.byte_at String.get option_map].
  destruct (utf8.first (nat_of_ascii c)) as [[size [lo hi]]|]; [|lia].
  repeat match goal with |- context [if ?b then _ else _] => destruct b end; lia.
Qed.

Lemma drop_length :
  forall n s, String.length (utf8.drop n s) = String.length s - n.
Proof.
  induction n as [|n IH]; intros [|c s]; cbn; auto.
Qed.

Lemma append_empty_r : forall s : string, s ++ EmptyString = s.
Proof.
  induction s as [|c s IH]; cbn; congruence.
Qed.

Lemma concat_empty_cons :
  forall x xs, String.concat EmptyString (x :: xs) = x ++ String.concat EmptyString xs.
Proof.
  intros x [|y xs]; cbn [String.concat].
  - now rewrite append_empty_r.
  - reflexivity.
Qed.

Lemma runes_fuel_concat :
  forall fuel s,
    String.length s <= fuel -> String.concat EmptyString (utf8.runes_fuel fuel s) = s.
Proof.
  induction fuel as [|fuel IH]; intros [|c t] Hl; cbn [String.length] in Hl;
    try reflexivity; [lia|].
  cbn [utf8.runes_fuel]. rewrite concat_empty_cons.
  pose proof (width_positive c t) as Hw.
  rewrite IH; [apply substring_drop|].
  rewrite drop_length. cbn [String.length]. lia.
Qed.

(** The runes of a string are consecutive pieces of it. *)
Lemma runes_concat :
  forall s, String.concat EmptyString (utf8.runes s) = s.
Proof.
  intros s. unfold utf8.runes. now apply runes_fuel_concat.
Qed.

(** The pattern on diagnostics as the compiler prints them. *)
Example FindStringSubmatch_diagnostic :
  regexp.FindStringSubmatch re
    "./output/conversions.go:9:6: cannot convert p_bool (variable of type bool) to type uint8"
  = ["./output/conversions.go:9:6: cannot convert p_bool (variable of type bool) to type uint8";
     "bool"; "uint8"].
Proof. reflexivity. Qed.

Example FindStringSubmatch_older_diagnostic :
  regexp.FindStringSubmatch re
    "output/conversions.go:155:15: cannot convert p_string (type string) to type complex128"
  = ["output/conversions.go:155:15: cannot convert p_string (type string) to type complex128";
     "string"; "complex128"].
Proof. reflexivity. Qed.

Example FindStringSubmatch_no_match :
  regexp.FindStringSubmatch re "cannot convert" = [].
Proof. reflexivity. Qed.

Example Split_lines :
  strings.Split ("# command-line-arguments" ++ String LF "a" ++ String LF EmptyString) LF
  = ["# command-line-arguments"; "a"; EmptyString].
Proof. reflexivity. Qed.

Example runes_of_mark : utf8.runes ("a" ++ convertible) = ["a"; convertible].
Proof. reflexivity. Qed.

(** ** [Contains] is membership by exact equality of both fields *)

Lemma Contains_true_iff :
  forall (cfs : ConversionFailures) (from to : string),
    Contains cfs from to = true <->
    exists cf, In cf cfs /\ From cf = from /\ To cf = to.
Proof.
  induction cfs as [|cf cfs IH]; simpl; intros from to.
  - split; [discriminate | intros (cf & [] & _)].
  - destruct (String.eqb_spec (From cf) from) as [Hf|Hf];
      destruct (String.eqb_spec (To cf) to) as [Ht|Ht]; simpl.
    + split; [intros _; exists cf; auto | reflexivity].
    + rewrite IH. split.
      * intros (cf' & Hin & H1 & H2). exists cf'. auto.
      * intros (cf' & [<-|Hin] & H1 & H2); [contradiction | exists cf'; auto].
    + rewrite IH. split.
      * intros (cf' & Hin & H1 & H2). exists cf'. auto.
      * intros (cf' & [<-|Hin] & H1 & H2); [contradiction | exists cf'; auto].
    + rewrite IH. split.
      * intros (cf' & Hin & H1 & H2). exists cf'. auto.
      * intros (cf' & [<-|Hin] & H1 & H2); [contradiction | exists cf'; auto].
Qed.

Lemma Contains_false_iff :
  forall (cfs : ConversionFailures) (from to : string),
    Contains cfs from to = false <->
    ~ (exists cf, In cf cfs /\ From cf = from /\ To cf = to).
Proof.
  intros cfs from to. rewrite <- Contains_true_iff.
  destruct (Contains cfs from to); split; intros H; congruence.
Qed.

Lemma Contains_pair_iff :
  forall (cfs : ConversionFailures) (from to : string),
    Contains cfs from to = true <-> In {| From := from; To := to |} cfs.
Proof.
  intros cfs from to. rewrite Contains_true_iff. split.
  - intros ([f t] & Hin & H1 & H2). simpl in *. now subst.
  - intros Hin. exists {| From := from; To := to |}. auto.
Qed.

(** ** The shape of the report *)

Lemma Report_inner_length :
  forall cfs outer inner, List.length (Report_inner cfs outer inner) = List.length inner.
Proof.
  induction inner as [|p inner IH]; simpl; auto.
Qed.

Lemma Report_inner_nth :
  forall cfs outer inner j p,
    nth_error inner j = Some p ->
    nth_error (Report_inner cfs outer inner) j
    = Some (verdict_line outer p (marker cfs outer p)).
Proof.
  induction inner as [|q inner IH]; intros [|j] p H; simpl in *; try discriminate.
  - now injection H as ->.
  - now apply IH.
Qed.

Lemma Report_inner_In :
  forall cfs outer inner line,
    In line (Report_inner cfs outer inner) <->
    exists p, In p inner /\ line = verdict_line outer p (marker cfs outer p).
Proof.
  induction inner as [|q inner IH]; simpl; intros line.
  - split; [tauto | intros (p & [] & _)].
  - rewrite IH. split.
    + intros [H | (p & Hin & H)]; [exists q | exists p]; auto.
    + intros (p & [<- | Hin] & H); [left | right; exists p]; auto.
Qed.

Lemma Report_outer_length :
  forall cfs outer,
    List.length (Report_outer cfs outer)
    = List.length outer * S (List.length Primitives).
Proof.
  induction outer as [|o outer IH]; [reflexivity|].
  cbn [Report_outer]. rewrite length_app, IH. cbn [List.length].
  rewrite Report_inner_length. reflexivity.
Qed.

Lemma Report_outer_nth :
  forall cfs outer i o k,
    nth_error outer i = Some o ->
    k < S (List.length Primitives) ->
    nth_error (Report_outer cfs outer) (S (List.length Primitives) * i + k)
    = nth_error (header_line o :: Report_inner cfs o Primitives) k.
Proof.
  induction outer as [|q outer IH]; intros [|i] o k H Hk;
    cbn [nth_error] in H; try discriminate.
  - injection H as ->. rewrite Nat.mul_0_r, Nat.add_0_l.
    cbn [Report_outer]. apply nth_error_app1.
    cbn [List.length]. now rewrite Report_inner_length.
  - cbn [Report_outer]. rewrite nth_error_app2.
    + cbn [List.length]. rewrite Report_inner_length.
      replace (S (List.length Primitives) * S i + k - S (List.length Primitives))
        with (S (List.length Primitives) * i + k) by lia.
      now apply IH.
    + cbn [List.length]. rewrite Report_inner_length. lia.
Qed.

Lemma Report_outer_In :
  forall cfs outer line,
    In line (Report_outer cfs outer) <->
    exists o, In o outer /\
      (line = header_line o \/
       exists p, In p Primitives /\ line = verdict_line o p (marker cfs o p)).
Proof.
  induction outer as [|q outer IH]; intros line.
  - simpl. split; [tauto | intros (o & [] & _)].
  - cbn [Report_outer]. rewrite in_app_iff. cbn [In].
    rewrite IH, Report_inner_In. split.
    + intros [[H | H] | (o & Hin & H)].
      * exists q. auto.
      * exists q. auto.
      * exists o. auto.
    + intros (o & [<- | Hin] & [H | H]); auto; right; exists o; auto.
Qed.

(** ** The lines of the report identify their pair

    Every catalog name fits the ten-rune fields of the verdict line, so a
    verdict line determines the pair and the marker it was printed for. *)

Lemma catalog_check :
  forallb (fun p =>
    Nat.eqb (String.length (fmt.pad_left 10 p)) 10
    && Nat.eqb (String.length (fmt.pad_right 10 p)) 10
    && forallb (fun q =>
         implb (String.eqb (fmt.pad_left 10 p) (fmt.pad_left 10 q)) (String.eqb p q)
         && implb (String.eqb (fmt.pad_right 10 p) (fmt.pad_right 10 q)) (String.eqb p q))
       Primitives)
    Primitives = true.
Proof. vm_compute. reflexivity. Qed.

Lemma catalog_fields :
  forall p, In p Primitives ->
    String.length (fmt.pad_left 10 p) = 10 /\
    String.length (fmt.pad_right 10 p) = 10 /\
    forall q, In q Primitives ->
      (fmt.pad_left 10 p = fmt.pad_left 10 q -> p = q) /\
      (fmt.pad_right 10 p = fmt.pad_right 10 q -> p = q).
Proof.
  intros p Hp. pose proof catalog_check as H.
  rewrite forallb_forall in H. specialize (H p Hp).
  apply andb_prop in H as [H Hq]. apply andb_prop in H as [Hl Hr].
  apply Nat.eqb_eq in Hl, Hr. repeat split; auto.
  - intros E. rewrite forallb_forall in Hq. specialize (Hq q H).
    apply andb_prop in Hq as [Hq _]. rewrite E, String.eqb_refl in Hq.
    now apply String.eqb_eq.
  - intros E. rewrite forallb_forall in Hq. specialize (Hq q H).
    apply andb_prop in Hq as [_ Hq]. rewrite E, String.eqb_refl in Hq.
    now apply String.eqb_eq.
Qed.

Lemma marker_cases :
  forall cfs from to,
    (Contains cfs from to = false /\ marker cfs from to = convertible) \/
    (Contains cfs from to = true /\ marker cfs from to = not_convertible).
Proof.
  intros cfs from to. unfold marker. destruct (Contains cfs from to); auto.
Qed.

Lemma marks_differ : convertible <> not_convertible.
Proof. discriminate. Qed.

Lemma verdict_line_inj :
  forall from to m from' to' m',
    In from Primitives -> In to Primitives ->
    In from' Primitives -> In to' Primitives ->
    verdict_line from to m = verdict_line from' to' m' ->
    from = from' /\ to = to' /\ m ++ " " = m' ++ " ".
Proof.
  intros from to m from' to' m' Hf Ht Hf' Ht' H. unfold verdict_line in H.
  destruct (catalog_fields _ Hf) as (Lf & _ & If).
  destruct (catalog_fields _ Hf') as (Lf' & _ & _).
  destruct (catalog_fields _ Ht) as (_ & Lt & It).
  destruct (catalog_fields _ Ht') as (_ & Lt' & _).
  apply append_split_same_length in H as [E1 H]; [|congruence].
  apply (append_inv_head " -> ") in H.
  apply append_split_same_length in H as [E2 H]; [|congruence].
  apply (append_inv_head " ") in H.
  repeat split; auto.
  - now apply (proj1 (If from' Hf')).
  - now apply (proj2 (It to' Ht')).
Qed.

Lemma header_is_no_verdict :
  forall o from to m,
    In from Primitives -> header_line o <> verdict_line from to m.
Proof.
  intros o from to m Hf H.
  assert (G : String.get 0 (verdict_line from to m) = String.get 0 (fmt.pad_left 10 from)).
  { unfold verdict_line. symmetry. apply append_correct1.
    destruct (catalog_fields _ Hf) as (-> & _). lia. }
  rewrite <- H in G.
  change (String.get 0 (header_line o)) with (Some "-"%char) in G.
  assert (C : forallb (fun p =>
      negb (match String.get 0 (fmt.pad_left 10 p) with
            | Some c => Ascii.eqb c "-"
            | None => true
            end)) Primitives = true) by (vm_compute; reflexivity).
  rewrite forallb_forall in C. specialize (C from Hf). cbv beta in C.
  rewrite <- G in C. discriminate C.
Qed.

(** A line of the report that is the verdict line of a catalog pair was
    printed for that pair. *)
Lemma Report_lines_verdict :
  forall cfs from to m,
    In from Primitives -> In to Primitives ->
    m = convertible \/ m = not_convertible ->
    (In (verdict_line from to m) (Report_lines cfs) <-> m = marker cfs from to).
Proof.
  intros cfs from to m Hf Ht Hm. unfold Report_lines.
  rewrite Report_outer_In. split.
  - intros (o & Ho & [H | (p & Hp & H)]).
    + symmetry in H. now apply header_is_no_verdict in H.
    + apply verdict_line_inj in H as (-> & -> & H); auto.
      destruct Hm as [-> | ->];
        destruct (marker_cases cfs o p) as [[_ E] | [_ E]];
        rewrite E in *; auto; vm_compute in H; discriminate H.
  - intros ->. exists from. split; [assumption|]. right. exists to. auto.
Qed.

Lemma Report_lines_nth_header :
  forall cfs i outer,
    nth_error Primitives i = Some outer ->
    nth_error (Report_lines cfs) (20 * i) = Some (header_line outer).
Proof.
  intros cfs i outer H. unfold Report_lines.
  change 20 with (S (List.length Primitives)).
  rewrite <- (Nat.add_0_r (_ * i)).
  rewrite (Report_outer_nth cfs Primitives i outer 0 H); [reflexivity | lia].
Qed.

Lemma Report_lines_nth_verdict :
  forall cfs i j outer inner,
    nth_error Primitives i = Some outer ->
    nth_error Primitives j = Some inner ->
    nth_error (Report_lines cfs) (20 * i + 1 + j)
    = Some (verdict_line outer inner (marker cfs outer inner)).
Proof.
  intros cfs i j outer inner Hi Hj. unfold Report_lines.
  change 20 with (S (List.length Primitives)).
  rewrite <- Nat.add_assoc.
  assert (Hlt : j < List.length Primitives)
    by (apply nth_error_Some; congruence).
  rewrite (Report_outer_nth cfs Primitives i outer (1 + j) Hi) by lia.
  cbn [Nat.add nth_error].
  now rewrite (Report_inner_nth cfs outer Primitives j inner Hj).
Qed.

(** With an empty failure set no line of the report carries the
    not-convertible mark, and 19 x 19 lines carry the convertible one. *)
Lemma Report_lines_nil :
  List.length (filter (fun l => strings.Contains l convertible) (Report_lines []))
  = 19 * 19
  /\ Forall (fun l => strings.Contains l not_convertible = false) (Report_lines []).
Proof.
  split; [vm_compute; reflexivity|].
  apply Forall_forall. intros l Hl.
  assert (C : forallb (fun l => negb (strings.Contains l not_convertible))
                (Report_lines []) = true) by (vm_compute; reflexivity).
  rewrite forallb_forall in C. apply C in Hl.
  now destruct (strings.Contains l not_convertible).
Qed.

(** ** Verdicts and the failure set *)

(** C1. For every failure set [cfs] and every ordered pair of catalog
    names, the report has the pair's line with the convertible mark exactly
    when no element of [cfs] has its [From] equal to [from] and its [To]
    equal to [to] (equality of whole strings), and has the pair's line with
    the other mark exactly when there is such an element; [Contains] is
    that membership test. *)
Theorem Report_convertible_iff_absent :
  forall (cfs : ConversionFailures) (from to : string),
    In from Primitives -> In to Primitives ->
    (In (verdict_line from to convertible) (Report_lines cfs)
       <-> ~ (exists cf, In cf cfs /\ From cf = from /\ To cf = to))
    /\ (In (verdict_line from to not_convertible) (Report_lines cfs)
       <-> exists cf, In cf cfs /\ From cf = from /\ To cf = to)
    /\ (Contains cfs from to = true
       <-> exists cf, In cf cfs /\ From cf = from /\ To cf = to).
Proof.
  intros cfs from to Hf Ht. repeat split.
  - intros H. apply Report_lines_verdict in H; auto.
    apply Contains_false_iff.
    destruct (marker_cases cfs from to) as [[C _] | [_ E]]; [exact C|].
    rewrite E in H. now apply marks_differ in H.
  - intros H. apply Report_lines_verdict; auto.
    apply Contains_false_iff in H. unfold marker. now rewrite H.
  - intros H. apply Report_lines_verdict in H; auto.
    apply Contains_true_iff.
    destruct (marker_cases cfs from to) as [[_ E] | [C _]]; [|exact C].
    rewrite E in H. symmetry in H. now apply marks_differ in H.
  - intros H. apply Report_lines_verdict; auto.
    apply Contains_true_iff in H. unfold marker. now rewrite H.
  - apply Contains_true_iff.
  - apply Contains_true_iff.
Qed.

Lemma Report_convertible_iff_absent_witness :
  In (verdict_line "bool" "uint8" not_convertible)
     (Report_lines [{| From := "bool"; To := "uint8" |}])
  <-> exists cf, In cf [{| From := "bool"; To := "uint8" |}]
                 /\ From cf = "bool" /\ To cf = "uint8".
Proof.
  apply (Report_convertible_iff_absent
           [{| From := "bool"; To := "uint8" |}] "bool" "uint8");
    simpl; tauto.
Defined.

(** ** The order of the report *)

(** C8. [Report] logs, after what was logged before, the catalog's
    self-product in catalog order: the block of the [i]-th catalog name
    starts at line [20 * i] with the section header of that name, and the
    [j]-th of the 19 lines after it is the verdict line of the pair made
    of the [i]-th and the [j]-th name, which shows the from-name, an
    arrow, the to-name and the pair's mark. *)
Theorem Report_catalog_order :
  forall cfs : ConversionFailures,
    List.length Primitives = 19
    /\ (forall fx,
          Report cfs fx
          = (Ok tt, {| output_file := output_file fx;
                       logged := (logged fx ++ Report_lines cfs)%list |}))
    /\ List.length (Report_lines cfs) = 19 * 20
    /\ (forall i outer,
          nth_error Primitives i = Some outer ->
          nth_error (Report_lines cfs) (20 * i) = Some (header_line outer))
    /\ (forall i j outer inner,
          nth_error Primitives i = Some outer ->
          nth_error Primitives j = Some inner ->
          nth_error (Report_lines cfs) (20 * i + 1 + j)
          = Some (verdict_line outer inner
                    (if Contains cfs outer inner
                     then not_convertible else convertible)))
    /\ (forall outer inner mark,
          exists l r,
            verdict_line outer inner mark
            = l ++ outer ++ " -> " ++ inner ++ r ++ " " ++ mark ++ " ").
Proof.
  intros cfs. split; [reflexivity|]. split; [reflexivity|].
  split; [unfold Report_lines; now rewrite Report_outer_length|].
  split; [|split].
  - apply Report_lines_nth_header.
  - intros i j outer inner Hi Hj.
    rewrite (Report_lines_nth_verdict cfs i j outer inner Hi Hj).
    unfold marker. now destruct (Contains cfs outer inner).
  - intros outer inner mark.
    exists (fmt.spaces (10 - utf8.RuneCountInString outer)),
           (fmt.spaces (10 - utf8.RuneCountInString inner)).
    unfold verdict_line, fmt.pad_left, fmt.pad_right.
    now rewrite !append_assoc.
Qed.

Lemma Report_catalog_order_witness :
  nth_error (Report_lines [{| From := "uint8"; To := "bool" |}]) (20 * 1 + 1 + 0)
  = Some (verdict_line "uint8" "bool" not_convertible).
Proof.
  apply (proj1 (proj2 (proj2 (proj2 (proj2
           (Report_catalog_order [{| From := "uint8"; To := "bool" |}]))))) 1 0);
    reflexivity.
Defined.

(** ** [Compile]: the exit status *)

Lemma itoa_inj : forall n m, fmt.itoa n = fmt.itoa m -> n = m.
Proof.
  unfold fmt.itoa. intros n m H.
  apply DecimalNat.Unsigned.to_uint_inj.
  assert (E : Some (Nat.to_uint n) = Some (Nat.to_uint m)).
  { rewrite <- !DecimalString.NilEmpty.usu. now rewrite H. }
  now injection E.
Qed.

Lemma Run_expected_status :
  forall name o, exec.Run name o = Some "exit status 2" <-> o = exec.Exited 2.
Proof.
  intros name o. split.
  - destruct o as [[|n] | sig | cause | path cause]; cbn [exec.Run]; intros H;
      try discriminate H.
    injection H as H.
    change "2" with (fmt.itoa 2) in H. apply itoa_inj in H. now rewrite H.
  - intros ->. reflexivity.
Qed.

Lemma Compile_unfold :
  forall w,
    Compile w =
    match exec.Run "go" (build_outcome w) with
    | Some e =>
        if negb (String.eqb e "exit status 2")
        then Err (Wrap e "unexpected error while running compilation command")
        else extract (marked_lines w) []
    | None => extract (marked_lines w) []
    end.
Proof. intros w. reflexivity. Qed.

Lemma Compile_proceeds :
  forall w, proceeds (build_outcome w) -> Compile w = extract (marked_lines w) [].
Proof.
  intros w [H | H]; rewrite Compile_unfold, H; reflexivity.
Qed.

Lemma Compile_rejects :
  forall w e,
    exec.Run "go" (build_outcome w) = Some e ->
    build_outcome w <> exec.Exited 2 ->
    Compile w = Err (Wrap e "unexpected error while running compilation command").
Proof.
  intros w e H Hne. rewrite Compile_unfold, H.
  destruct (String.eqb_spec e "exit status 2") as [-> | _]; [|reflexivity].
  now apply Run_expected_status in H.
Qed.

(** ** [Compile]: the extraction loops *)

Lemma conversion_lines_In :
  forall lines line,
    In line (conversion_lines lines) <->
    In line lines /\ strings.Contains line "cannot convert" = true.
Proof.
  induction lines as [|l lines IH]; intros line; cbn [conversion_lines In].
  - tauto.
  - destruct (strings.Contains l "cannot convert") eqn:E; cbn [In]; rewrite IH.
    + split; [intros [<- | [H1 H2]]; auto | intros [[<- | H1] H2]; auto].
    + split; [intros [H1 H2]; auto | intros [[<- | H1] H2]; auto; congruence].
Qed.

Lemma conversion_lines_none :
  forall lines,
    Forall (fun line => strings.Contains line "cannot convert" = false) lines ->
    conversion_lines lines = [].
Proof.
  induction 1 as [|l lines Hl _ IH]; cbn [conversion_lines]; [reflexivity|].
  now rewrite Hl.
Qed.

Lemma FindStringSubmatch_re_shape :
  forall line,
    regexp.FindStringSubmatch re line = [] \/
    exists whole from to, regexp.FindStringSubmatch re line = [whole; from; to].
Proof.
  intros line. unfold regexp.FindStringSubmatch.
  destruct (regexp.search re (utf8.runes line)) as [[whole caps]|]; [right|left; reflexivity].
  exists whole, (regexp.get_cap 1 caps), (regexp.get_cap 2 caps). reflexivity.
Qed.

Lemma extract_step_matched :
  forall line rest cfs,
    matched line ->
    extract (line :: rest) cfs = extract rest (cfs ++ [pair_of_line line])%list.
Proof.
  intros line rest cfs Hm. unfold pair_of_line. cbn [extract].
  destruct (FindStringSubmatch_re_shape line) as [E | (whole & from & to & E)].
  - contradiction.
  - rewrite E. reflexivity.
Qed.

Lemma extract_step_unmatched :
  forall line rest cfs,
    regexp.FindStringSubmatch re line = [] ->
    extract (line :: rest) cfs = Panic (IndexOutOfRange 1 0).
Proof.
  intros line rest cfs E. cbn [extract]. rewrite E. reflexivity.
Qed.

Lemma extract_all_matched :
  forall lines cfs,
    Forall matched lines ->
    extract lines cfs = Ok (cfs ++ map pair_of_line lines)%list.
Proof.
  induction lines as [|l lines IH]; intros cfs H.
  - cbn. now rewrite app_nil_r.
  - inversion H as [|? ? Hl Hrest]; subst.
    rewrite extract_step_matched by assumption.
    rewrite IH by assumption. cbn [map]. now rewrite <- app_assoc.
Qed.

Lemma extract_some_unmatched :
  forall lines cfs,
    Exists (fun line => regexp.FindStringSubmatch re line = []) lines ->
    extract lines cfs = Panic (IndexOutOfRange 1 0).
Proof.
  induction lines as [|l lines IH]; intros cfs H.
  - inversion H.
  - destruct (FindStringSubmatch_re_shape l) as [E | (whole & from & to & E)].
    + now apply extract_step_unmatched.
    + rewrite extract_step_matched by (unfold matched; rewrite E; discriminate).
      apply IH. inversion H as [? ? Hl | ? ? Hrest]; subst; [congruence | assumption].
Qed.

(** ** [Main] after a successful [Generate] *)

Lemma Main_after_Generate :
  forall w fx fx1,
    Generate w fx = (Ok tt, fx1) ->
    Main w fx =
    match Compile w with
    | Ok cfs => (Ok tt, {| output_file := output_file fx1;
                           logged := (logged fx1 ++ Report_lines cfs)%list |})
    | Err err => (Err (Wrap err "compiling"), fx1)
    | Panic p => (Panic p, fx1)
    end.
Proof.
  intros w fx fx1 H. unfold Main. rewrite H.
  destruct (Compile w); reflexivity.
Qed.

Lemma extract_no_Err :
  forall lines cfs e, extract lines cfs <> Err e.
Proof.
  induction lines as [|l lines IH]; intros cfs e.
  - discriminate.
  - destruct (FindStringSubmatch_re_shape l) as [E | (whole & from & to & E)].
    + rewrite extract_step_unmatched by assumption. discriminate.
    + rewrite extract_step_matched by (unfold matched; rewrite E; discriminate).
      apply IH.
Qed.

Lemma marked_lines_unmatched :
  forall w line,
    In line (strings.Split (build_stderr w) LF) ->
    strings.Contains line "cannot convert" = true ->
    regexp.FindStringSubmatch re line = [] ->
    Exists (fun l => regexp.FindStringSubmatch re l = []) (marked_lines w).
Proof.
  intros w line Hin Hc Hm. apply Exists_exists. exists line. split; [|assumption].
  unfold marked_lines. apply conversion_lines_In. auto.
Qed.

(** ** A marked line the pattern does not match *)

(** C3 (the code departs from it). When the build ends as expected and
    the diagnostics have a line with the marker that the pattern does not
    match, [Compile] returns no error at all: indexing the empty result of
    the match panics, and the panic goes through [Main] as a panic, after
    [Generate] has written the output file; nothing is wrapped with the
    stage that failed. *)
Theorem Compile_unmatched_line_is_panic_not_error :
  forall (w : World) (line : string),
    proceeds (build_outcome w) ->
    In line (strings.Split (build_stderr w) LF) ->
    strings.Contains line "cannot convert" = true ->
    regexp.FindStringSubmatch re line = [] ->
    Compile w = Panic (IndexOutOfRange 1 0)
    /\ (forall e, Compile w <> Err e)
    /\ (forall fx fx1,
          Generate w fx = (Ok tt, fx1) ->
          Main w fx = (Panic (IndexOutOfRange 1 0), fx1)).
Proof.
  intros w line Hp Hin Hc Hm.
  assert (E : Compile w = Panic (IndexOutOfRange 1 0)).
  { rewrite Compile_proceeds by assumption.
    apply extract_some_unmatched. now apply (marked_lines_unmatched w line). }
  split; [exact E|]. split.
  - intros e. rewrite E. discriminate.
  - intros fx fx1 HG. rewrite (Main_after_Generate w fx fx1 HG), E. reflexivity.
Qed.

Lemma Compile_unmatched_line_is_panic_not_error_witness :
  Main (example_world "2020-11-22T10:00:00Z" (exec.Exited 2)
          "./output/conversions.go:9:6: cannot convert p_bool (variable of type bool) to uint8")
       no_effects
  = (Panic (IndexOutOfRange 1 0),
     snd (Generate (example_world "2020-11-22T10:00:00Z" (exec.Exited 2)
          "./output/conversions.go:9:6: cannot convert p_bool (variable of type bool) to uint8")
        no_effects)).
Proof.
  apply (Compile_unmatched_line_is_panic_not_error
           (example_world "2020-11-22T10:00:00Z" (exec.Exited 2)
              "./output/conversions.go:9:6: cannot convert p_bool (variable of type bool) to uint8")
           "./output/conversions.go:9:6: cannot convert p_bool (variable of type bool) to uint8").
  - left. reflexivity.
  - left. reflexivity.
  - reflexivity.
  - reflexivity.
  - reflexivity.
Defined.

(** C9. There is a captured diagnostic text with a line that contains
    "cannot convert" and that the pattern does not match; on it the match
    result is nil, [matches[1]] is an index out of range, and [Compile]
    ends in that panic, not in a returned error. *)
Theorem Compile_index_out_of_range :
  exists (w : World) (line : string),
    In line (strings.Split (build_stderr w) LF)
    /\ strings.Contains line "cannot convert" = true
    /\ regexp.FindStringSubmatch re line = []
    /\ index (regexp.FindStringSubmatch re line) 1 = Panic (IndexOutOfRange 1 0)
    /\ Compile w = Panic (IndexOutOfRange 1 0)
    /\ (forall e, Compile w <> Err e).
Proof.
  exists (example_world "2020-11-22T10:00:00Z" (exec.Exited 2) "cannot convert"),
         "cannot convert".
  repeat split; try reflexivity.
  - left. reflexivity.
  - intros e. vm_compute. discriminate.
Qed.

(** ** The exit status of the build *)

(** C5. Exit status 2 is the success path: [Compile] goes on to the
    extraction and returns no error.  Every other non-zero exit status, a
    death by signal, and a failure to start the process make [Compile]
    return an error that wraps the error of the command, and no failure
    set. *)
Theorem Compile_exit_status :
  forall w : World,
    (build_outcome w = exec.Exited 2 ->
       Compile w = extract (marked_lines w) [] /\ forall e, Compile w <> Err e)
    /\ (forall status,
          build_outcome w = exec.Exited status -> status <> 0 -> status <> 2 ->
          Compile w
          = Err (Wrap ("exit status " ++ fmt.itoa status)
                   "unexpected error while running compilation command"))
    /\ (forall cause,
          build_outcome w = exec.NotFound cause ->
          Compile w
          = Err (Wrap ("exec: " ++ fmt.quote "go" ++ ": " ++ cause)
                   "unexpected error while running compilation command"))
    /\ (forall path cause,
          build_outcome w = exec.NotStarted path cause ->
          Compile w
          = Err (Wrap ("fork/exec " ++ path ++ ": " ++ cause)
                   "unexpected error while running compilation command"))
    /\ (forall signal,
          build_outcome w = exec.Signaled signal ->
          Compile w
          = Err (Wrap ("signal: " ++ signal)
                   "unexpected error while running compilation command")).
Proof.
  intros w. repeat split.
  - apply Compile_proceeds. now left.
  - intros e. rewrite Compile_proceeds by now left. apply extract_no_Err.
  - intros status H H0 H2. apply Compile_rejects.
    + rewrite H. destruct status; [contradiction | reflexivity].
    + rewrite H. congruence.
  - intros cause H. apply Compile_rejects; rewrite H; [reflexivity | discriminate].
  - intros path cause H. apply Compile_rejects; rewrite H; [reflexivity | discriminate].
  - intros signal H. apply Compile_rejects; rewrite H; [reflexivity | discriminate].
Qed.

Lemma Compile_exit_status_witness :
  Compile (example_world "2020-11-22T10:00:00Z" (exec.Exited 1) "go: cannot find main module")
  = Err (Wrap ("exit status " ++ fmt.itoa 1)
           "unexpected error while running compilation command").
Proof.
  apply (proj1 (proj2 (Compile_exit_status
           (example_world "2020-11-22T10:00:00Z" (exec.Exited 1)
              "go: cannot find main module"))) 1).
  - reflexivity.
  - lia.
  - lia.
Defined.

(** ** Diagnostics without the marker *)

(** C7. When no line of the diagnostic text contains "cannot convert", the
    failure set [Compile] builds is empty: it is [Ok []] whenever the build
    ended so that [Compile] reads the diagnostics, and [Compile] returns no
    other set; [Main] then logs the report of the empty set, in which each
    of the 19 x 19 pairs has the convertible mark and no line has the
    other one. *)
Theorem no_marked_line_all_convertible :
  forall w : World,
    Forall (fun line => strings.Contains line "cannot convert" = false)
           (strings.Split (build_stderr w) LF) ->
    (proceeds (build_outcome w) -> Compile w = Ok [])
    /\ (forall cfs, Compile w = Ok cfs -> cfs = [])
    /\ (forall fx fx1,
          proceeds (build_outcome w) ->
          Generate w fx = (Ok tt, fx1) ->
          Main w fx = (Ok tt, {| output_file := output_file fx1;
                                 logged := (logged fx1 ++ Report_lines [])%list |}))
    /\ (forall i j from to,
          nth_error Primitives i = Some from ->
          nth_error Primitives j = Some to ->
          nth_error (Report_lines []) (20 * i + 1 + j)
          = Some (verdict_line from to convertible))
    /\ List.length (filter (fun l => strings.Contains l convertible) (Report_lines []))
       = 19 * 19
    /\ Forall (fun l => strings.Contains l not_convertible = false) (Report_lines []).
Proof.
  intros w H.
  assert (M : marked_lines w = []) by now apply conversion_lines_none.
  assert (P : proceeds (build_outcome w) -> Compile w = Ok []).
  { intros Hp. rewrite Compile_proceeds by assumption. now rewrite M. }
  split; [exact P|]. split; [|split; [|split]].
  - intros cfs. rewrite Compile_unfold, M.
    destruct (exec.Run "go" (build_outcome w)) as [e|];
      [destruct (negb (String.eqb e "exit status 2"))|];
      cbn [extract]; congruence.
  - intros fx fx1 Hp HG.
    rewrite (Main_after_Generate w fx fx1 HG), (P Hp). reflexivity.
  - intros i j from to Hi Hj.
    now rewrite (Report_lines_nth_verdict [] i j from to Hi Hj).
  - exact Report_lines_nil.
Qed.

Lemma no_marked_line_all_convertible_witness :
  Compile (example_world "2020-11-22T10:00:00Z" (exec.Exited 2)
             ("# command-line-arguments" ++ String LF EmptyString))
  = Ok [].
Proof.
  apply (no_marked_line_all_convertible
           (example_world "2020-11-22T10:00:00Z" (exec.Exited 2)
              ("# command-line-arguments" ++ String LF EmptyString))).
  - repeat constructor.
  - left. reflexivity.
Defined.

(** ** The generated source across runs *)

(** A template whose execution evaluates neither the time nor the program
    name does the same, write for write, on any two data with the same
    catalog, and so ends the same way against the same file. *)
Lemma Execute_catalog_only :
  forall t : template.Template,
    template.catalog_only t ->
    forall (d1 d2 : template.Data) (limit : os.Limit) (content : string),
      template.Primitives d1 = template.Primitives d2 ->
      template.Execute t d1 limit content = template.Execute t d2 limit content.
Proof.
  induction 1 as [| err | text next _ IH | next _ IH];
    intros d1 d2 limit content HP; cbn [template.Execute].
  - reflexivity.
  - reflexivity.
  - destruct (os.Write limit content text) as [content' [err|]]; [reflexivity|].
    now apply IH.
  - rewrite <- HP. now apply IH.
Qed.

(** Against C2 as stated: the same template and the same catalog, at two
    different times, give two different output files. *)
Lemma Generate_differs_with_the_clock :
  parsed_template (example_world "2020-11-22T10:00:00Z" (exec.Exited 2) EmptyString)
  = parsed_template (example_world "2020-11-22T10:00:01Z" (exec.Exited 2) EmptyString)
  /\ fst (Generate (example_world "2020-11-22T10:00:00Z" (exec.Exited 2) EmptyString)
            no_effects) = Ok tt
  /\ fst (Generate (example_world "2020-11-22T10:00:01Z" (exec.Exited 2) EmptyString)
            no_effects) = Ok tt
  /\ output_file (snd (Generate
       (example_world "2020-11-22T10:00:00Z" (exec.Exited 2) EmptyString) no_effects))
     <> output_file (snd (Generate
       (example_world "2020-11-22T10:00:01Z" (exec.Exited 2) EmptyString) no_effects)).
Proof.
  split; [reflexivity|]. split; [vm_compute; reflexivity|].
  split; [vm_compute; reflexivity|].
  intros H.
  apply (f_equal (fun o => match o with
                           | Some s => String.get 54 s
                           | None => None
                           end)) in H.
  vm_compute in H. discriminate H.
Qed.

(** C2, amended. Two runs of [Generate] with the same parsed template
    (the catalog is the constant [Primitives]), in both of which the output
    file is created and can be written equally far, return the same result
    and leave the same bytes in the output file, whatever the times of the
    runs and the names of the program are, provided that the execution of
    the template evaluates neither [.Now] nor [.App]. *)
Theorem Generate_same_output :
  forall (w1 w2 : World) (fx1 fx2 : Effects) (t : template.Template),
    parsed_template w1 = inl t ->
    parsed_template w2 = inl t ->
    create_error w1 = None ->
    create_error w2 = None ->
    write_limit w1 = write_limit w2 ->
    template.catalog_only t ->
    fst (Generate w1 fx1) = fst (Generate w2 fx2)
    /\ output_file (snd (Generate w1 fx1)) = output_file (snd (Generate w2 fx2)).
Proof.
  intros w1 w2 fx1 fx2 t H1 H2 C1 C2 L H. unfold Generate.
  rewrite H1, H2, C1, C2, L.
  rewrite (Execute_catalog_only t H
             {| template.Now := now w1; template.App := args0 w1;
                template.Primitives := Primitives |}
             {| template.Now := now w2; template.App := args0 w2;
                template.Primitives := Primitives |}
             (write_limit w2) EmptyString eq_refl).
  destruct (template.Execute t _ (write_limit w2) EmptyString) as [content [err|]];
    split; reflexivity.
Qed.

Lemma Generate_same_output_witness :
  output_file (snd (Generate
    {| parsed_template :=
         inl (template.GetPrimitives (fun primitives => write_each primitives template.Done));
       create_error := None; write_limit := Some (100, "no space left on device");
       now := "2020-11-22T10:00:00Z"; args0 := "./go-conversions";
       build_outcome := exec.Exited 2; build_stderr := EmptyString |} no_effects))
  = output_file (snd (Generate
    {| parsed_template :=
         inl (template.GetPrimitives (fun primitives => write_each primitives template.Done));
       create_error := None; write_limit := Some (100, "no space left on device");
       now := "2021-01-01T00:00:00Z"; args0 := "/tmp/go-build/main";
       build_outcome := exec.Exited 2; build_stderr := EmptyString |} no_effects)).
Proof.
  apply (Generate_same_output
    {| parsed_template :=
         inl (template.GetPrimitives (fun primitives => write_each primitives template.Done));
       create_error := None; write_limit := Some (100, "no space left on device");
       now := "2020-11-22T10:00:00Z"; args0 := "./go-conversions";
       build_outcome := exec.Exited 2; build_stderr := EmptyString |}
    {| parsed_template :=
         inl (template.GetPrimitives (fun primitives => write_each primitives template.Done));
       create_error := None; write_limit := Some (100, "no space left on device");
       now := "2021-01-01T00:00:00Z"; args0 := "/tmp/go-build/main";
       build_outcome := exec.Exited 2; build_stderr := EmptyString |}
    no_effects no_effects
    (template.GetPrimitives (fun primitives => write_each primitives template.Done))).
  - reflexivity.
  - reflexivity.
  - reflexivity.
  - reflexivity.
  - reflexivity.
  - constructor. intros primitives.
    induction primitives as [|text rest IH]; cbn [write_each]; now constructor.
Defined.

(** * Further properties of the program *)

(** ** The report as a function of the failure set *)

Lemma Report_inner_agree :
  forall cfs cfs' outer inner,
    (forall p, In p inner -> Contains cfs outer p = Contains cfs' outer p) ->
    Report_inner cfs outer inner = Report_inner cfs' outer inner.
Proof.
  induction inner as [|p inner IH]; intros H; cbn [Report_inner]; [reflexivity|].
  rewrite (H p) by now left. rewrite IH; [reflexivity|].
  intros q Hq. apply H. now right.
Qed.

Lemma Report_outer_agree :
  forall cfs cfs' outer,
    (forall o p, In o outer -> In p Primitives ->
                 Contains cfs o p = Contains cfs' o p) ->
    Report_outer cfs outer = Report_outer cfs' outer.
Proof.
  induction outer as [|o outer IH]; intros H; cbn [Report_outer]; [reflexivity|].
  rewrite (Report_inner_agree cfs cfs' o Primitives).
  - rewrite IH; [reflexivity|]. intros o' p Ho Hp. apply H; [now right | exact Hp].
  - intros p Hp. apply H; [now left | exact Hp].
Qed.

Lemma Contains_same_elements :
  forall cfs cfs' from to,
    (forall cf, In cf cfs <-> In cf cfs') ->
    Contains cfs from to = Contains cfs' from to.
Proof.
  intros cfs cfs' from to H.
  destruct (Contains cfs from to) eqn:E; symmetry.
  - apply Contains_pair_iff, H, Contains_pair_iff, E.
  - destruct (Contains cfs' from to) eqn:E'; [|reflexivity].
    apply Contains_pair_iff, H, Contains_pair_iff in E'. congruence.
Qed.

Lemma Contains_app :
  forall cfs1 cfs2 from to,
    Contains (cfs1 ++ cfs2)%list from to
    = Contains cfs1 from to || Contains cfs2 from to.
Proof.
  induction cfs1 as [|cf cfs1 IH]; intros cfs2 from to; cbn [Contains app].
  - reflexivity.
  - destruct (String.eqb (From cf) from && String.eqb (To cf) to); [reflexivity | apply IH].
Qed.

(** X1. Two failure sets give the same report exactly when they agree, by
    [Contains], on every pair of catalog names; so the report does not
    depend on the order of the entries, on how often an entry occurs, or
    on entries that name a type outside the catalog. *)
Theorem Report_lines_eq_iff :
  forall cfs cfs' : ConversionFailures,
    (Report_lines cfs = Report_lines cfs'
     <-> forall from to,
           In from Primitives -> In to Primitives ->
           Contains cfs from to = Contains cfs' from to)
    /\ ((forall cf, In cf cfs <-> In cf cfs') ->
        Report_lines cfs = Report_lines cfs')
    /\ (forall cf,
          ~ In (From cf) Primitives \/ ~ In (To cf) Primitives ->
          Report_lines (cf :: cfs) = Report_lines cfs).
Proof.
  intros cfs cfs'.
  assert (A : (forall from to,
                 In from Primitives -> In to Primitives ->
                 Contains cfs from to = Contains cfs' from to) ->
              Report_lines cfs = Report_lines cfs').
  { intros H. unfold Report_lines. apply Report_outer_agree. intros o p Ho Hp. now apply H. }
  split; [split; [|exact A]|split].
  - intros E from to Hf Ht.
    destruct (In_nth_error _ _ Hf) as [i Hi].
    destruct (In_nth_error _ _ Ht) as [j Hj].
    pose proof (Report_lines_nth_verdict cfs i j from to Hi Hj) as L.
    rewrite E, (Report_lines_nth_verdict cfs' i j from to Hi Hj) in L.
    injection L as L. apply verdict_line_inj in L as (_ & _ & L); auto.
    destruct (marker_cases cfs from to) as [[C M] | [C M]];
      destruct (marker_cases cfs' from to) as [[C' M'] | [C' M']];
      rewrite M, M' in L; try congruence; vm_compute in L; discriminate L.
  - intros H. apply A. intros from to _ _. now apply Contains_same_elements.
  - intros cf H. unfold Report_lines. apply Report_outer_agree.
    intros o p Ho Hp. cbn [Contains].
    destruct (String.eqb_spec (From cf) o) as [<- | _];
      destruct (String.eqb_spec (To cf) p) as [<- | _]; cbn [andb];
      try reflexivity.
    destruct H as [H | H]; contradiction.
Qed.

Lemma Report_lines_eq_iff_witness :
  Report_lines [{| From := "int"; To := "bool" |}; {| From := "bool"; To := "int" |};
                {| From := "int"; To := "bool" |}]
  = Report_lines [{| From := "bool"; To := "int" |}; {| From := "int"; To := "bool" |}].
Proof.
  apply (proj1 (proj2 (Report_lines_eq_iff
    [{| From := "int"; To := "bool" |}; {| From := "bool"; To := "int" |};
     {| From := "int"; To := "bool" |}]
    [{| From := "bool"; To := "int" |}; {| From := "int"; To := "bool" |}]))).
  intros cf. simpl. tauto.
Defined.

(** ** The width of the report *)

Lemma length_append :
  forall a b : string, String.length (a ++ b) = String.length a + String.length b.
Proof.
  induction a as [|c a IH]; intros b; cbn; [reflexivity | now rewrite IH].
Qed.

(** X2. The two ten-rune fields of the verdict line are wide enough for
    every catalog name: whatever the failure set, a line of the report is
    either the header of a catalog name or a verdict line of exactly 29
    bytes (10 + 4 + 10 + 1 + 3 + 1), so the arrows and the marks of all 361
    verdict lines stand in the same columns. *)
Theorem Report_lines_aligned :
  forall (cfs : ConversionFailures) (line : string),
    In line (Report_lines cfs) ->
    (exists outer, In outer Primitives /\ line = header_line outer)
    \/ (String.length line = 29
        /\ String.get 10 line = Some " "%char
        /\ String.get 11 line = Some "-"%char
        /\ String.get 12 line = Some ">"%char
        /\ String.get 13 line = Some " "%char
        /\ String.get 24 line = Some " "%char
        /\ String.get 28 line = Some " "%char).
Proof.
  intros cfs line H. unfold Report_lines in H. apply Report_outer_In in H.
  destruct H as (o & Ho & [H | (p & Hp & H)]); [left; now exists o | right].
  destruct (catalog_fields o Ho) as (Lo & _ & _).
  destruct (catalog_fields p Hp) as (_ & Lp & _).
  assert (Lm : String.length (marker cfs o p) = 3)
    by (destruct (marker_cases cfs o p) as [[_ ->] | [_ ->]]; reflexivity).
  subst line. unfold verdict_line.
  remember (fmt.pad_left 10 o) as a. remember (fmt.pad_right 10 p) as b.
  remember (marker cfs o p) as m. clear - Lo Lp Lm.
  do 11 (destruct a as [|? a]; cbn [String.length] in Lo; try discriminate Lo).
  do 11 (destruct b as [|? b]; cbn [String.length] in Lp; try discriminate Lp).
  do 4 (destruct m as [|? m]; cbn [String.length] in Lm; try discriminate Lm).
  repeat split; reflexivity.
Qed.

Lemma Report_lines_aligned_witness :
  (exists outer, In outer Primitives
                 /\ verdict_line "complex128" "uintptr" convertible = header_line outer)
  \/ (String.length (verdict_line "complex128" "uintptr" convertible) = 29
      /\ String.get 10 (verdict_line "complex128" "uintptr" convertible) = Some " "%char
      /\ String.get 11 (verdict_line "complex128" "uintptr" convertible) = Some "-"%char
      /\ String.get 12 (verdict_line "complex128" "uintptr" convertible) = Some ">"%char
      /\ String.get 13 (verdict_line "complex128" "uintptr" convertible) = Some " "%char
      /\ String.get 24 (verdict_line "complex128" "uintptr" convertible) = Some " "%char
      /\ String.get 28 (verdict_line "complex128" "uintptr" convertible) = Some " "%char).
Proof.
  apply (Report_lines_aligned []).
  apply (nth_error_In _ (20 * 12 + 1 + 16)). reflexivity.
Defined.

(** ** [Generate]: when it fails and what it leaves *)

Lemma substring_all : forall s : string, substring 0 (String.length s) s = s.
Proof.
  induction s as [|c s IH]; cbn; [reflexivity|]. now rewrite IH.
Qed.

Lemma substring_app_short :
  forall (a b : string) (n : nat),
    n <= String.length a -> substring 0 n (a ++ b) = substring 0 n a.
Proof.
  induction a as [|c a IH]; intros b n H; cbn in H.
  - replace n with 0 by lia. now destruct b.
  - destruct n as [|n]; cbn; [reflexivity|]. rewrite IH by lia. reflexivity.
Qed.

Lemma substring_app_long :
  forall (a b : string) (n : nat),
    substring 0 (String.length a + n) (a ++ b) = a ++ substring 0 n b.
Proof.
  induction a as [|c a IH]; intros b n; cbn; [reflexivity|]. now rewrite IH.
Qed.

(** Without a limit no write fails, and the file only grows. *)
Lemma Execute_grows :
  forall t data content,
    exists more,
      fst (template.Execute t data None content) = content ++ more.
Proof.
  induction t as [| err | text next IH | next IH | next IH | next IH];
    intros data content; cbn [template.Execute os.Write fst].
  - exists EmptyString. now rewrite append_empty_r.
  - exists EmptyString. now rewrite append_empty_r.
  - destruct (IH data (content ++ text)) as [more E].
    exists (text ++ more). now rewrite E, append_assoc.
  - apply IH.
  - apply IH.
  - apply IH.
Qed.

(** With a limit the execution goes as without one until the limit is
    reached: the file then holds the first [room] bytes of what the
    template prints, and the error is that of the write. *)
Lemma Execute_limit :
  forall t data room err content,
    String.length content <= room ->
    template.Execute t data (Some (room, err)) content
    = if Nat.leb (String.length (fst (template.Execute t data None content))) room
      then template.Execute t data None content
      else (substring 0 room (fst (template.Execute t data None content)), Some err).
Proof.
  induction t as [| e | text next IH | next IH | next IH | next IH];
    intros data room err content H; cbn [template.Execute fst].
  - apply Nat.leb_le in H. now rewrite H.
  - apply Nat.leb_le in H. now rewrite H.
  - cbn [os.Write].
    destruct (Nat.leb (String.length content + String.length text) room) eqn:E.
    + apply Nat.leb_le in E. apply IH. now rewrite length_append.
    + apply Nat.leb_gt in E.
      destruct (Execute_grows next data (content ++ text)) as [more M].
      rewrite M.
      replace (Nat.leb (String.length ((content ++ text) ++ more)) room) with false
        by (symmetry; apply Nat.leb_gt; rewrite !length_append; lia).
      f_equal.
      replace room with (String.length content + (room - String.length content))
        at 2 by lia.
      rewrite !append_assoc, substring_app_long.
      now rewrite substring_app_short by lia.
  - now apply IH.
  - now apply IH.
  - now apply IH.
Qed.

Lemma Generate_logged :
  forall w fx, logged (snd (Generate w fx)) = logged fx.
Proof.
  intros w fx. unfold Generate.
  destruct (parsed_template w) as [t | err]; [|reflexivity].
  destruct (create_error w) as [err|]; [reflexivity|].
  destruct (template.Execute t _ _ _) as [content [err|]]; reflexivity.
Qed.

Lemma Generate_no_panic :
  forall w fx p, fst (Generate w fx) <> Panic p.
Proof.
  intros w fx p. unfold Generate.
  destruct (parsed_template w) as [t | err]; [|discriminate].
  destruct (create_error w) as [err|]; [discriminate|].
  destruct (template.Execute t _ _ _) as [content [err|]]; discriminate.
Qed.

(** X3. [Generate] fails at three points.  When the template file cannot
    be parsed or the output file cannot be created, the error names the
    file and neither the output file nor the log is touched.  Once the
    file is created its former content is gone, and the execution of the
    template fails either with the error of a write, the file then holding
    exactly the first bytes of what the template prints, as many as the
    file takes, or with the template's own error, the file then holding
    all the template printed before it; both come back behind "executing
    template".  Otherwise [Generate] returns [nil] and the file holds all
    the template prints for the time of the run, the name of the program
    and the catalog.  The log is never touched. *)
Theorem Generate_failures :
  forall (w : World) (fx : Effects),
    match parsed_template w, create_error w with
    | inr err, _ =>
        Generate w fx
        = (Err ("parsing template file " ++ fmt.quote "./template/conversions.tmpl"
                ++ ": " ++ err), fx)
    | inl _, Some err =>
        Generate w fx
        = (Err ("creating output file " ++ fmt.quote "./output/conversions.go"
                ++ ": " ++ err), fx)
    | inl t, None =>
        let printed :=
          template.Execute t
            {| template.Now := now w;
               template.App := args0 w;
               template.Primitives := Primitives |} None EmptyString in
        let complete :=
          (match snd printed with
           | Some err => Err ("executing template: " ++ err)
           | None => Ok tt
           end,
           {| output_file := Some (fst printed); logged := logged fx |}) in
        match write_limit w with
        | None => Generate w fx = complete
        | Some (room, err) =>
            if Nat.ltb room (String.length (fst printed))
            then Generate w fx
                 = (Err ("executing template: " ++ err),
                    {| output_file := Some (substring 0 room (fst printed));
                       logged := logged fx |})
            else Generate w fx = complete
        end
    end.
Proof.
  intros w fx. unfold Generate, Wrap.
  destruct (parsed_template w) as [t | err].
  - destruct (create_error w) as [err|].
    + now rewrite append_assoc.
    + cbv zeta. destruct (write_limit w) as [[room err]|].
      * rewrite Execute_limit by apply Nat.le_0_l.
        rewrite Nat.ltb_antisym.
        destruct (Nat.leb (String.length (fst (template.Execute t _ None EmptyString))) room);
          cbn [negb]; [|reflexivity].
        destruct (template.Execute t _ None EmptyString) as [content [e|]]; reflexivity.
      * destruct (template.Execute t _ None EmptyString) as [content [e|]]; reflexivity.
  - now rewrite append_assoc.
Qed.

Lemma Generate_failures_witness :
  Generate
    {| parsed_template := inl example_template;
       create_error := None;
       write_limit := Some (20, "write ./output/conversions.go: no space left on device");
       now := "2020-11-22T10:00:00Z";
       args0 := "./go-conversions";
       build_outcome := exec.Exited 2;
       build_stderr := EmptyString |}
    {| output_file := Some "stale"; logged := ["earlier"] |}
  = (Err "executing template: write ./output/conversions.go: no space left on device",
     {| output_file := Some "// generated by ./go"; logged := ["earlier"] |}).
Proof.
  exact (Generate_failures
    {| parsed_template := inl example_template;
       create_error := None;
       write_limit := Some (20, "write ./output/conversions.go: no space left on device");
       now := "2020-11-22T10:00:00Z";
       args0 := "./go-conversions";
       build_outcome := exec.Exited 2;
       build_stderr := EmptyString |}
    {| output_file := Some "stale"; logged := ["earlier"] |}).
Defined.

(** ** [Main]: errors and effects *)

Lemma Main_unfold :
  forall w fx,
    Main w fx =
    match Generate w fx with
    | (Err err, fx1) => (Err ("generating: " ++ err), fx1)
    | (Panic p, fx1) => (Panic p, fx1)
    | (Ok _, fx1) =>
        match Compile w with
        | Err err => (Err ("compiling: " ++ err), fx1)
        | Panic p => (Panic p, fx1)
        | Ok cfs => (Ok tt, {| output_file := output_file fx1;
                               logged := (logged fx1 ++ Report_lines cfs)%list |})
        end
    end.
Proof.
  intros w fx. unfold Main.
  destruct (Generate w fx) as [[[]|e|p] fx1]; reflexivity.
Qed.

(** X4. Every error [Main] returns is the error of [Generate] behind
    "generating: " or, when [Generate] succeeded, the error of [Compile]
    behind "compiling: "; no error of [Main] starts with "reporting
    results", since [Report] never fails.  When [Generate] fails, [Main]
    returns its error whatever the build and its diagnostics would be. *)
Theorem Main_error_names_the_stage :
  forall (w : World) (fx : Effects),
    (forall e,
       fst (Main w fx) = Err e ->
       ((exists e', fst (Generate w fx) = Err e' /\ e = "generating: " ++ e')
        \/ (exists e', fst (Generate w fx) = Ok tt /\ Compile w = Err e'
                       /\ e = "compiling: " ++ e'))
       /\ String.prefix "reporting results" e = false)
    /\ (forall e' w',
          fst (Generate w fx) = Err e' ->
          parsed_template w' = parsed_template w ->
          create_error w' = create_error w ->
          write_limit w' = write_limit w ->
          now w' = now w -> args0 w' = args0 w ->
          Main w' fx = (Err ("generating: " ++ e'), snd (Generate w fx))).
Proof.
  intros w fx. split.
  - intros e. rewrite Main_unfold.
    destruct (Generate w fx) as [[[]|e1|p] fx1]; cbn [fst].
    + destruct (Compile w) as [cfs|e2|p]; cbn [fst]; intros H; try discriminate H.
      injection H as <-. split; [|reflexivity]. right. now exists e2.
    + intros H. injection H as <-. split; [|reflexivity]. left. now exists e1.
    + discriminate.
  - intros e' w' HG Hp Hc Hl Hn Ha.
    assert (E : Generate w' fx = Generate w fx)
      by (unfold Generate; now rewrite Hp, Hc, Hl, Hn, Ha).
    rewrite Main_unfold, E.
    destruct (Generate w fx) as [[[]|e1|p] fx1]; cbn [fst snd] in *;
      try discriminate HG.
    now injection HG as ->.
Qed.

Lemma Main_error_names_the_stage_witness :
  (exists e', fst (Generate (example_world "2020-11-22T10:00:00Z" (exec.Exited 1) EmptyString)
                     no_effects) = Err e'
              /\ "compiling: unexpected error while running compilation command: exit status 1"
                 = "generating: " ++ e')
  \/ (exists e', fst (Generate (example_world "2020-11-22T10:00:00Z" (exec.Exited 1) EmptyString)
                        no_effects) = Ok tt
                 /\ Compile (example_world "2020-11-22T10:00:00Z" (exec.Exited 1) EmptyString)
                    = Err e'
                 /\ "compiling: unexpected error while running compilation command: exit status 1"
                    = "compiling: " ++ e').
Proof.
  apply (proj1 (Main_error_names_the_stage
                  (example_world "2020-11-22T10:00:00Z" (exec.Exited 1) EmptyString)
                  no_effects)).
  reflexivity.
Defined.

(** X5. [Main] logs all of the report or nothing: when it returns [nil]
    the log has grown by exactly the 380 lines of the report of the set
    [Compile] returned; when it returns an error or panics the log is as
    it was.  In every case the output file is as [Generate] left it. *)
Theorem Main_logs_all_or_nothing :
  forall (w : World) (fx : Effects),
    output_file (snd (Main w fx)) = output_file (snd (Generate w fx))
    /\ ((exists cfs,
           fst (Generate w fx) = Ok tt /\ Compile w = Ok cfs
           /\ fst (Main w fx) = Ok tt
           /\ logged (snd (Main w fx)) = (logged fx ++ Report_lines cfs)%list
           /\ List.length (logged (snd (Main w fx))) = List.length (logged fx) + 380)
        \/ (fst (Main w fx) <> Ok tt
            /\ logged (snd (Main w fx)) = logged fx)).
Proof.
  intros w fx. rewrite Main_unfold.
  pose proof (Generate_logged w fx) as L.
  destruct (Generate w fx) as [[[]|e1|p] fx1]; cbn [fst snd] in *.
  - destruct (Compile w) as [cfs|e2|p]; cbn [fst snd output_file logged].
    + split; [reflexivity|]. left. exists cfs. rewrite L.
      repeat split; try reflexivity.
      rewrite length_app. unfold Report_lines. now rewrite Report_outer_length.
    + split; [reflexivity|]. right. split; [discriminate | exact L].
    + split; [reflexivity|]. right. split; [discriminate | exact L].
  - split; [reflexivity|]. right. split; [discriminate | exact L].
  - split; [reflexivity|]. right. split; [discriminate | exact L].
Qed.

(** ** [Compile]: its three outcomes *)

Lemma outcome_cases :
  forall o,
    proceeds o
    \/ (~ proceeds o /\ o <> exec.Exited 2 /\ exists e, exec.Run "go" o = Some e).
Proof.
  intros [[|[|[|n]]] | sig | cause | path cause].
  - left. now right.
  - right. split; [intros [H | H]; discriminate H|]. split; [discriminate|].
    eexists. reflexivity.
  - left. now left.
  - right. split; [intros [H | H]; discriminate H|]. split; [discriminate|].
    eexists. reflexivity.
  - right. split; [intros [H | H]; discriminate H|]. split; [discriminate|].
    eexists. reflexivity.
  - right. split; [intros [H | H]; discriminate H|]. split; [discriminate|].
    eexists. reflexivity.
  - right. split; [intros [H | H]; discriminate H|]. split; [discriminate|].
    eexists. reflexivity.
Qed.

Lemma lines_matched_or_not :
  forall lines,
    Forall matched lines
    \/ Exists (fun line => regexp.FindStringSubmatch re line = []) lines.
Proof.
  induction lines as [|l lines [IH | IH]].
  - left. constructor.
  - destruct (FindStringSubmatch_re_shape l) as [E | (whole & from & to & E)].
    + right. now left.
    + left. constructor; [|assumption]. unfold matched. rewrite E. discriminate.
  - right. now right.
Qed.

(** X6. [Compile] ends in exactly one of three ways.  It returns an error,
    wrapping the error of the command, when the build ended otherwise than
    with status 2 or 0; the diagnostics are then not examined.  Otherwise
    it returns the pairs of the marked lines, in order, when the pattern
    matches every marked line, and it panics when some marked line is not
    matched; the only panic it can raise is the index 1 on the empty
    match, so [matches[2]] and [pieces[0]] never fail. *)
Theorem Compile_outcomes :
  forall w : World,
    (~ proceeds (build_outcome w)
     /\ exists e,
          exec.Run "go" (build_outcome w) = Some e
          /\ Compile w
             = Err ("unexpected error while running compilation command: " ++ e))
    \/ (proceeds (build_outcome w)
        /\ Forall matched (marked_lines w)
        /\ Compile w = Ok (map pair_of_line (marked_lines w)))
    \/ (proceeds (build_outcome w)
        /\ Exists (fun line => regexp.FindStringSubmatch re line = []) (marked_lines w)
        /\ Compile w = Panic (IndexOutOfRange 1 0)).
Proof.
  intros w. destruct (outcome_cases (build_outcome w)) as [Hp | (Hn & H2 & e & He)].
  - right. rewrite (Compile_proceeds w Hp).
    destruct (lines_matched_or_not (marked_lines w)) as [Hm | Hm].
    + left. split; [exact Hp|]. split; [exact Hm|].
      now rewrite extract_all_matched.
    + right. split; [exact Hp|]. split; [exact Hm|].
      now apply extract_some_unmatched.
  - left. split; [exact Hn|]. exists e. split; [exact He|].
    now rewrite (Compile_rejects w e He H2).
Qed.

Lemma Compile_panic_index :
  forall w p, Compile w = Panic p -> p = IndexOutOfRange 1 0.
Proof.
  intros w p H.
  destruct (outcome_cases (build_outcome w)) as [Hp | (_ & H2 & e & He)].
  - rewrite (Compile_proceeds w Hp) in H.
    destruct (lines_matched_or_not (marked_lines w)) as [Hm | Hm].
    + rewrite extract_all_matched in H by assumption. discriminate H.
    + rewrite extract_some_unmatched in H by assumption. congruence.
  - rewrite (Compile_rejects w e He H2) in H. discriminate H.
Qed.

(** ** [main]: how the process ends *)

Lemma list_ascii_of_string_app :
  forall a b,
    list_ascii_of_string (a ++ b)
    = (list_ascii_of_string a ++ list_ascii_of_string b)%list.
Proof.
  induction a as [|c a IH]; intros b; cbn; [reflexivity | now rewrite IH].
Qed.

Lemma last_element_app :
  forall relem rest,
    Forall (fun c => c <> "/"%char) relem ->
    filepath.last_element (relem ++ "/"%char :: rest) = relem.
Proof.
  induction 1 as [|c relem Hc _ IH]; cbn [filepath.last_element app].
  - reflexivity.
  - destruct (Ascii.eqb_spec c "/") as [-> | _]; [contradiction | now rewrite IH].
Qed.

(** [filepath.Base] of a directory, a slash and a file name is the name. *)
Lemma Base_of_joined :
  forall dir name,
    name <> EmptyString ->
    Forall (fun c => c <> "/"%char) (list_ascii_of_string name) ->
    filepath.Base (dir ++ "/" ++ name) = name.
Proof.
  intros dir name Hne Hs. unfold filepath.Base.
  destruct (dir ++ "/" ++ name) eqn:E.
  - destruct dir; discriminate E.
  - rewrite <- E. clear E.
    rewrite list_ascii_of_string_app, rev_app_distr.
    cbn [append list_ascii_of_string List.rev]. rewrite <- app_assoc. cbn [app].
    assert (R : Forall (fun c => c <> "/"%char) (List.rev (list_ascii_of_string name)))
      by (apply Forall_rev, Hs).
    destruct (List.rev (list_ascii_of_string name)) as [|c relem] eqn:Er.
    + apply (f_equal (@List.rev ascii)) in Er. rewrite rev_involutive in Er.
      destruct name; [contradiction | discriminate Er].
    + cbn [app filepath.strip_trailing].
      inversion R as [|? ? Hc Hr]; subst.
      destruct (Ascii.eqb_spec c "/") as [-> | _]; [contradiction|].
      change (c :: (relem ++ "/"%char :: List.rev (list_ascii_of_string dir))%list)
        with (((c :: relem) ++ "/"%char :: List.rev (list_ascii_of_string dir))%list).
      rewrite last_element_app by assumption. cbv iota.
      change (List.rev relem ++ [c])%list with (List.rev (c :: relem)).
      rewrite <- Er, rev_involutive. apply string_of_list_ascii_of_string.
Qed.

(** X7. [main] first logs "starting" and then ends in one of three ways.
    It returns (exit status 0) exactly when [Generate] and [Compile]
    succeed: the log then holds the whole report, "done" and the elapsed
    time.  On an error of [Main] it ends in [logrus.Fatal] with the error
    behind the base name of the program; nothing but "starting" is logged
    at info level, neither "done" nor the elapsed time.  It crashes only
    with the index panic of [Compile], after logging the elapsed time. *)
Theorem main_outcomes :
  forall (w : World) (elapsed : string) (fx : Effects),
    (exists cfs,
       fst (Generate w (Info fx "starting")) = Ok tt
       /\ Compile w = Ok cfs
       /\ fst (main w elapsed fx) = Returned
       /\ logged (snd (main w elapsed fx))
          = (logged fx ++ ["starting"] ++ Report_lines cfs
             ++ ["done"; ("execution took " ++ elapsed)%string])%list)
    \/ (exists e,
          fst (Main w (Info fx "starting")) = Err e
          /\ fst (main w elapsed fx) = Fatal (filepath.Base (args0 w) ++ ": " ++ e)
          /\ logged (snd (main w elapsed fx)) = (logged fx ++ ["starting"])%list)
    \/ (Compile w = Panic (IndexOutOfRange 1 0)
        /\ fst (main w elapsed fx) = Crashed (IndexOutOfRange 1 0)
        /\ logged (snd (main w elapsed fx))
           = (logged fx ++ ["starting"; ("execution took " ++ elapsed)%string])%list).
Proof.
  intros w elapsed fx. unfold main. rewrite Main_unfold.
  pose proof (Generate_logged w (Info fx "starting")) as L.
  pose proof (Generate_no_panic w (Info fx "starting")) as NP.
  destruct (Generate w (Info fx "starting")) as [[[]|e1|p] fx1]; cbn [fst snd] in *.
  - destruct (Compile w) as [cfs|e2|p] eqn:EC.
    + left. exists cfs. repeat split. cbn [Info logged snd]. rewrite L.
      cbn [Info logged]. now rewrite <- !app_assoc.
    + right. left. exists ("compiling: " ++ e2). repeat split. exact L.
    + right. right. apply Compile_panic_index in EC as ->.
      repeat split. cbn [Info logged snd]. rewrite L. cbn [Info logged].
      now rewrite <- app_assoc.
  - right. left. exists ("generating: " ++ e1). repeat split. exact L.
  - now destruct (NP p).
Qed.

(** ** What a match of the pattern looks like *)

Lemma concat_empty_app :
  forall a b : list string,
    String.concat EmptyString (a ++ b)
    = String.concat EmptyString a ++ String.concat EmptyString b.
Proof.
  induction a as [|x a IH]; intros b.
  - reflexivity.
  - cbn [app]. rewrite !concat_empty_cons, IH. now rewrite append_assoc.
Qed.

Lemma consumed_app :
  forall m rest : list regexp.rune,
    regexp.consumed (m ++ rest) rest = String.concat EmptyString m.
Proof.
  intros m rest. unfold regexp.consumed. rewrite length_app.
  replace (List.length m + List.length rest - List.length rest) with (List.length m) by lia.
  now rewrite firstn_app, firstn_all, Nat.sub_diag, firstn_O, app_nil_r.
Qed.

Lemma plus_loop_S :
  forall r k fuel s caps,
    plus_loop r k (S fuel) s caps
    = regexp.run r s caps (fun s' caps' =>
        if Nat.ltb (List.length s') (List.length s) then
          match plus_loop r k fuel s' caps' with
          | Some m => Some m
          | None => k s' caps'
          end
        else k s' caps').
Proof. reflexivity. Qed.

Lemma run_Plus :
  forall r s caps k,
    regexp.run (regexp.Plus r) s caps k = plus_loop r k (S (List.length s)) s caps.
Proof. reflexivity. Qed.

(** Whatever [regexp.run] returns was returned by its continuation, at the
    end of a match of the expression. *)
Lemma run_sound :
  forall r s caps k res,
    regexp.run r s caps k = Some res ->
    exists m s' caps',
      s = (m ++ s')%list /\ Matches r m caps caps' /\ k s' caps' = Some res.
Proof.
  induction r as [c | | r IH | r1 IH1 r2 IH2 | i r IH]; intros s caps k res H.
  - cbn [regexp.run] in H. destruct s as [|x s']; [discriminate H|].
    destruct (String.eqb_spec x (String c EmptyString)) as [-> | _]; [|discriminate H].
    exists [String c EmptyString], s', caps. repeat split; [constructor | exact H].
  - cbn [regexp.run] in H. destruct s as [|x s']; [discriminate H|].
    destruct (String.eqb_spec x (String LF EmptyString)) as [_ | Hne]; [discriminate H|].
    exists [x], s', caps. repeat split; [now constructor | exact H].
  - rewrite run_Plus in H. revert H. generalize (S (List.length s)) as fuel.
    intros fuel. revert s caps.
    induction fuel as [|fuel IHf]; intros s caps H; [discriminate H|].
    rewrite plus_loop_S in H.
    apply IH in H as (m1 & s1 & c1 & -> & HM & Hk). cbv beta in Hk.
    destruct (Nat.ltb (List.length s1) (List.length (m1 ++ s1)));
      [destruct (plus_loop r k fuel s1 c1) as [p|] eqn:E|].
    + injection Hk as ->.
      apply IHf in E as (m2 & s2 & c2 & -> & HM2 & Hk2).
      exists (m1 ++ m2)%list, s2, c2. rewrite <- app_assoc.
      repeat split; [now apply Matches_Plus_more with c1 | exact Hk2].
    + exists m1, s1, c1. repeat split; [now apply Matches_Plus_once | exact Hk].
    + exists m1, s1, c1. repeat split; [now apply Matches_Plus_once | exact Hk].
  - cbn [regexp.run] in H.
    apply IH1 in H as (m1 & s1 & c1 & -> & HM1 & H). cbv beta in H.
    apply IH2 in H as (m2 & s2 & c2 & -> & HM2 & H).
    exists (m1 ++ m2)%list, s2, c2. rewrite <- app_assoc.
    repeat split; [now apply Matches_Concat with c1 | exact H].
  - cbn [regexp.run] in H.
    apply IH in H as (m & s' & c1 & -> & HM & H). cbv beta in H.
    rewrite consumed_app in H.
    exists m, s', ((i, String.concat EmptyString m) :: c1).
    repeat split; [now constructor | exact H].
Qed.

Lemma search_sound :
  forall r s whole caps,
    regexp.search r s = Some (whole, caps) ->
    exists pre m rest,
      s = (pre ++ m ++ rest)%list /\ Matches r m [] caps
      /\ whole = String.concat EmptyString m.
Proof.
  intros r. induction s as [|x s IH]; intros whole caps H; cbn [regexp.search] in H.
  - destruct (regexp.run r [] [] _) as [[rest c]|] eqn:E; [|discriminate H].
    injection H as <- <-.
    apply run_sound in E as (m & s' & c' & Es & HM & Hk). injection Hk as -> ->.
    exists [], m, rest. split; [exact Es|]. split; [exact HM|].
    pose proof (consumed_app m rest) as C. rewrite <- Es in C. exact C.
  - destruct (regexp.run r (x :: s) [] _) as [[rest c]|] eqn:E.
    + injection H as <- <-.
      apply run_sound in E as (m & s' & c' & Es & HM & Hk). injection Hk as -> ->.
      exists [], m, rest. split; [exact Es|]. split; [exact HM|].
      pose proof (consumed_app m rest) as C. rewrite <- Es in C. exact C.
    + apply IH in H as (pre & m & rest & -> & HM & ->).
      exists (x :: pre), m, rest. auto.
Qed.

Lemma Matches_plus_any :
  forall m caps caps',
    Matches (regexp.Plus regexp.AnyCharNotNL) m caps caps' ->
    caps' = caps /\ m <> [] /\ Forall (fun x => x <> String LF EmptyString) m.
Proof.
  intros m caps caps' H.
  remember (regexp.Plus regexp.AnyCharNotNL) as r eqn:Er.
  induction H as [ | | | | r m caps caps1 H _ | r m1 m2 caps caps1 caps2 H1 _ H2 IH2];
    try discriminate Er; injection Er as ->.
  - inversion H; subst. repeat split; [discriminate | now constructor].
  - inversion H1; subst. destruct (IH2 eq_refl) as (-> & _ & F).
    repeat split; [discriminate | now constructor].
Qed.

Lemma runes_fuel_nonempty :
  forall fuel s, Forall (fun x => x <> EmptyString) (utf8.runes_fuel fuel s).
Proof.
  induction fuel as [|fuel IH]; intros [|c t]; cbn [utf8.runes_fuel]; try constructor.
  - pose proof (width_positive c t) as Hw.
    destruct (utf8.width (String c t)) as [|n]; [lia | discriminate].
  - apply IH.
Qed.

Lemma concat_nonempty :
  forall m : list string,
    m <> [] -> Forall (fun x => x <> EmptyString) m ->
    String.concat EmptyString m <> EmptyString.
Proof.
  intros [|x m] Hm F; [contradiction|].
  inversion F as [|? ? Hx _]; subst. rewrite concat_empty_cons.
  destruct x; [contradiction | discriminate].
Qed.

Ltac invert_matches :=
  repeat match goal with
  | H : Matches (regexp.Concat _ _) _ _ _ |- _ => inversion H; subst; clear H
  | H : Matches (regexp.Literal _) _ _ _ |- _ => inversion H; subst; clear H
  | H : Matches (regexp.Capture _ _) _ _ _ |- _ => inversion H; subst; clear H
  | H : Matches regexp.AnyCharNotNL _ _ _ |- _ => inversion H; subst; clear H
  | H : Matches (regexp.Plus regexp.AnyCharNotNL) _ _ _ |- _ =>
      apply Matches_plus_any in H; destruct H as (? & ? & ?); subst
  end.

Lemma re_match_shape :
  forall m caps,
    Matches re m [] caps ->
    exists ma x mfrom mb mto,
      m = (ma ++ [" "; "p"; x] ++ mfrom ++ [" "; "("] ++ mb
           ++ [")"; " "; "t"; "o"; " "; "t"; "y"; "p"; "e"; " "] ++ mto)%list
      /\ caps = [(2, String.concat EmptyString mto); (1, String.concat EmptyString mfrom)]
      /\ ma <> [] /\ mfrom <> [] /\ mb <> [] /\ mto <> [].
Proof.
  intros m caps H. unfold re in H.
  cbn [regexp.concat_all regexp.lits map list_ascii_of_string app] in H.
  invert_matches.
  match goal with
  | |- exists ma x mfrom mb mto,
         (?a ++ _ ++ _ ++ [?y] ++ ?f ++ _ ++ _ ++ ?b ++ _)%list = _ /\ _ =>
      exists a, y, f, b
  end.
  eexists. split; [reflexivity|]. repeat split; assumption.
Qed.

Lemma FindStringSubmatch_re_inv :
  forall line whole from to,
    regexp.FindStringSubmatch re line = [whole; from; to] ->
    exists pre m rest caps,
      utf8.runes line = (pre ++ m ++ rest)%list
      /\ Matches re m [] caps
      /\ whole = String.concat EmptyString m
      /\ from = regexp.get_cap 1 caps /\ to = regexp.get_cap 2 caps.
Proof.
  intros line whole from to H. unfold regexp.FindStringSubmatch in H.
  destruct (regexp.search re (utf8.runes line)) as [[w caps]|] eqn:E; [|discriminate H].
  change (regexp.NumSubexp re) with 2 in H. cbn [seq map] in H.
  injection H as -> <- <-.
  apply search_sound in E as (pre & m & rest & Er & HM & ->).
  exists pre, m, rest, caps. auto.
Qed.

Lemma line_shape :
  forall line whole from to,
    regexp.FindStringSubmatch re line = [whole; from; to] ->
    exists pre a x b post,
      line = pre ++ whole ++ post
      /\ whole = a ++ " p" ++ x ++ from ++ " (" ++ b ++ ") to type " ++ to
      /\ a <> EmptyString /\ x <> EmptyString /\ from <> EmptyString
      /\ b <> EmptyString /\ to <> EmptyString.
Proof.
  intros line whole from to H.
  apply FindStringSubmatch_re_inv in H as (pre & m & rest & caps & Er & HM & -> & -> & ->).
  apply re_match_shape in HM
    as (ma & x & mfrom & mb & mto & -> & -> & Ha & Hf & Hb & Ht).
  pose proof (runes_fuel_nonempty (String.length line) line) as F.
  fold (utf8.runes line) in F. rewrite Er in F.
  apply Forall_app in F as [_ F]. apply Forall_app in F as [F _].
  apply Forall_app in F as [Fa F]. apply Forall_app in F as [Fx F].
  apply Forall_app in F as [Ff F]. apply Forall_app in F as [_ F].
  apply Forall_app in F as [Fb F]. apply Forall_app in F as [_ Ft].
  exists (String.concat EmptyString pre), (String.concat EmptyString ma), x,
         (String.concat EmptyString mb), (String.concat EmptyString rest).
  split; [|split].
  - rewrite <- (runes_concat line) at 1. rewrite Er.
    now rewrite !concat_empty_app.
  - cbn [regexp.get_cap find fst Nat.eqb].
    rewrite !concat_empty_app, !concat_empty_cons. cbn [String.concat].
    rewrite ?append_empty_r, !append_assoc. reflexivity.
  - cbn [regexp.get_cap find fst Nat.eqb].
    repeat split; try (now apply concat_nonempty).
    inversion Fx as [|? ? Hp Fx1]; subst. inversion Fx1 as [|? ? Hp1 Fx2]; subst.
    inversion Fx2 as [|? ? Hx _]; subst. exact Hx.
Qed.

Lemma width_le_4 : forall s, utf8.width s <= 4.
Proof.
  intros s. unfold utf8.width.
  destruct (utf8.byte_at s 0) as [b0|]; [|lia].
  destruct (utf8.first b0) as [[size [lo hi]]|]; [|lia].
  repeat match goal with |- context [if ?b then _ else _] => destruct b end; lia.
Qed.

Lemma substring_length_le :
  forall n s, String.length (String.substring 0 n s) <= n.
Proof.
  induction n as [|n IH]; intros [|c s]; cbn; try lia.
  specialize (IH s). lia.
Qed.

Lemma runes_fuel_short :
  forall fuel s, Forall (fun x => String.length x <= 4) (utf8.runes_fuel fuel s).
Proof.
  induction fuel as [|fuel IH]; intros [|c t]; cbn [utf8.runes_fuel]; try constructor.
  - pose proof (substring_length_le (utf8.width (String c t)) (String c t)).
    pose proof (width_le_4 (String c t)). lia.
  - apply IH.
Qed.

(** X8. Whenever the pattern matches in a line, the line contains the
    match, and the match reads: some text, " p", one rune (one to four
    bytes), the first group, " (", some text, ") to type ", the second
    group; the two groups and the two texts are not empty. *)
Theorem FindStringSubmatch_re_sound :
  forall line whole from to : string,
    regexp.FindStringSubmatch re line = [whole; from; to] ->
    exists pre a x b post,
      line = pre ++ whole ++ post
      /\ whole = a ++ " p" ++ x ++ from ++ " (" ++ b ++ ") to type " ++ to
      /\ a <> EmptyString /\ from <> EmptyString
      /\ b <> EmptyString /\ to <> EmptyString
      /\ 1 <= String.length x <= 4.
Proof.
  intros line whole from to H.
  apply FindStringSubmatch_re_inv in H as (pre & m & rest & caps & Er & HM & -> & -> & ->).
  apply re_match_shape in HM
    as (ma & x & mfrom & mb & mto & -> & -> & Ha & Hf & Hb & Ht).
  pose proof (runes_fuel_nonempty (String.length line) line) as F.
  pose proof (runes_fuel_short (String.length line) line) as G.
  fold (utf8.runes line) in F, G. rewrite Er in F, G.
  apply Forall_app in F as [_ F]. apply Forall_app in F as [F _].
  apply Forall_app in F as [Fa F]. apply Forall_app in F as [Fx F].
  apply Forall_app in F as [Ff F]. apply Forall_app in F as [_ F].
  apply Forall_app in F as [Fb F]. apply Forall_app in F as [_ Ft].
  apply Forall_app in G as [_ G]. apply Forall_app in G as [G _].
  apply Forall_app in G as [_ G]. apply Forall_app in G as [Gx _].
  inversion Fx as [|? ? _ Fx1]; subst. inversion Fx1 as [|? ? _ Fx2]; subst.
  inversion Fx2 as [|? ? Hx _]; subst.
  inversion Gx as [|? ? _ Gx1]; subst. inversion Gx1 as [|? ? _ Gx2]; subst.
  inversion Gx2 as [|? ? Hx4 _]; subst.
  exists (String.concat EmptyString pre), (String.concat EmptyString ma), x,
         (String.concat EmptyString mb), (String.concat EmptyString rest).
  split; [|split].
  - rewrite <- (runes_concat line) at 1. rewrite Er.
    now rewrite !concat_empty_app.
  - cbn [regexp.get_cap find fst Nat.eqb].
    rewrite !concat_empty_app, !concat_empty_cons. cbn [String.concat].
    rewrite ?append_empty_r, !append_assoc. reflexivity.
  - cbn [regexp.get_cap find fst Nat.eqb].
    repeat split; try (now apply concat_nonempty); try exact Hx4.
    destruct x; [contradiction | cbn; lia].
Qed.

Lemma FindStringSubmatch_re_sound_witness :
  exists pre a x b post,
    "conversions.go:9:6: cannot convert p_bool (variable of type bool) to type uint8"
    = pre ++ "conversions.go:9:6: cannot convert p_bool (variable of type bool) to type uint8"
      ++ post
    /\ "conversions.go:9:6: cannot convert p_bool (variable of type bool) to type uint8"
       = a ++ " p" ++ x ++ "bool" ++ " (" ++ b ++ ") to type " ++ "uint8"
    /\ a <> EmptyString /\ "bool" <> EmptyString
    /\ b <> EmptyString /\ "uint8" <> EmptyString
    /\ 1 <= String.length x <= 4.
Proof.
  apply (FindStringSubmatch_re_sound
    "conversions.go:9:6: cannot convert p_bool (variable of type bool) to type uint8"
    "conversions.go:9:6: cannot convert p_bool (variable of type bool) to type uint8"
    "bool" "uint8").
  reflexivity.
Defined.

Lemma extract_Ok_inv :
  forall lines cfs0 cfs,
    extract lines cfs0 = Ok cfs ->
    Forall matched lines /\ cfs = (cfs0 ++ map pair_of_line lines)%list.
Proof.
  intros lines cfs0 cfs H.
  destruct (lines_matched_or_not lines) as [Hm | Hm].
  - rewrite extract_all_matched in H by assumption. injection H as <-. auto.
  - rewrite extract_some_unmatched in H by assumption. discriminate H.
Qed.

Lemma Compile_Ok_inv :
  forall w cfs,
    Compile w = Ok cfs ->
    Forall matched (marked_lines w) /\ cfs = map pair_of_line (marked_lines w).
Proof.
  intros w cfs H.
  destruct (outcome_cases (build_outcome w)) as [Hp | (_ & H2 & e & He)].
  - rewrite (Compile_proceeds w Hp) in H. now apply extract_Ok_inv in H.
  - rewrite (Compile_rejects w e He H2) in H. discriminate H.
Qed.

(** X9. Every entry of a failure set that [Compile] returns comes from a
    line of the diagnostics that contains "cannot convert": its [From] and
    [To] are not empty, and the line reads ... " p", one rune, [From],
    " (", ..., ") to type ", [To] ...; lines without the marker give no
    entry, even where the pattern would match them. *)
Theorem Compile_entries_come_from_marked_lines :
  forall (w : World) (cfs : ConversionFailures) (cf : ConversionFailure),
    Compile w = Ok cfs ->
    In cf cfs ->
    From cf <> EmptyString /\ To cf <> EmptyString
    /\ exists line a x b post,
         In line (strings.Split (build_stderr w) LF)
         /\ strings.Contains line "cannot convert" = true
         /\ a <> EmptyString /\ x <> EmptyString /\ b <> EmptyString
         /\ line = a ++ " p" ++ x ++ From cf ++ " (" ++ b ++ ") to type " ++ To cf ++ post.
Proof.
  intros w cfs cf HC Hin.
  apply Compile_Ok_inv in HC as [Hm ->].
  apply in_map_iff in Hin as (line & <- & Hl).
  rewrite Forall_forall in Hm. specialize (Hm line Hl).
  destruct (FindStringSubmatch_re_shape line) as [E | (whole & from & to & E)];
    [contradiction|].
  unfold pair_of_line. rewrite E. cbn [nth From To].
  apply line_shape in E
    as (pre & a & x & b & post & El & -> & Ha & Hx & Hf & Hb & Ht).
  split; [exact Hf|]. split; [exact Ht|].
  apply conversion_lines_In in Hl as [Hs Hc].
  exists line, (pre ++ a), x, b, post. repeat split; auto.
  - destruct pre; [exact Ha | discriminate].
  - rewrite El. now rewrite !append_assoc.
Qed.

Lemma Compile_entries_come_from_marked_lines_witness :
  From {| From := "string"; To := "int" |} <> EmptyString
  /\ To {| From := "string"; To := "int" |} <> EmptyString
  /\ exists line a x b post,
       In line (strings.Split
                  (build_stderr (example_world "2020-11-22T10:00:00Z" (exec.Exited 2)
                     "x.go:1:1: cannot convert p_string (type string) to type int")) LF)
       /\ strings.Contains line "cannot convert" = true
       /\ a <> EmptyString /\ x <> EmptyString /\ b <> EmptyString
       /\ line = a ++ " p" ++ x ++ From {| From := "string"; To := "int" |} ++ " (" ++ b
                 ++ ") to type " ++ To {| From := "string"; To := "int" |} ++ post.
Proof.
  apply (Compile_entries_come_from_marked_lines
           (example_world "2020-11-22T10:00:00Z" (exec.Exited 2)
              "x.go:1:1: cannot convert p_string (type string) to type int")
           [{| From := "string"; To := "int" |}]).
  - reflexivity.
  - left. reflexivity.
Defined.

(** ** The pattern accepts every line of the expected shape *)

(** A continuation that succeeds more often makes [regexp.run] succeed
    more often. *)
Lemma run_mono :
  forall r s caps k1 k2,
    (forall s' caps', k1 s' caps' <> None -> k2 s' caps' <> None) ->
    regexp.run r s caps k1 <> None -> regexp.run r s caps k2 <> None.
Proof.
  induction r as [c | | r IH | r1 IH1 r2 IH2 | i r IH]; intros s caps k1 k2 Hk.
  - cbn [regexp.run]. destruct s as [|x s']; [auto|].
    destruct (String.eqb x (String c EmptyString)); auto.
  - cbn [regexp.run]. destruct s as [|x s']; [auto|].
    destruct (String.eqb x (String LF EmptyString)); auto.
  - rewrite !run_Plus. generalize (S (List.length s)) as fuel.
    intros fuel. revert s caps.
    induction fuel as [|fuel IHf]; intros s caps; [auto|].
    rewrite !plus_loop_S. apply IH. intros s' caps'.
    destruct (Nat.ltb (List.length s') (List.length s)); [|apply Hk].
    specialize (IHf s' caps').
    destruct (plus_loop r k1 fuel s' caps'), (plus_loop r k2 fuel s' caps').
    + intros _. discriminate.
    + intros _. exfalso. exact (IHf ltac:(discriminate) eq_refl).
    + intros _. discriminate.
    + apply Hk.
  - cbn [regexp.run]. apply IH1. intros s1 c1. now apply IH2.
  - cbn [regexp.run]. apply IH. intros s' caps'. apply Hk.
Qed.

Lemma plus_loop_more_fuel :
  forall r k fuel fuel' s caps,
    fuel <= fuel' ->
    plus_loop r k fuel s caps <> None -> plus_loop r k fuel' s caps <> None.
Proof.
  intros r k fuel. induction fuel as [|fuel IHf]; intros fuel' s caps Hle H.
  - now destruct H.
  - destruct fuel' as [|fuel']; [lia|]. rewrite plus_loop_S in *.
    revert H. apply run_mono. intros s' caps'.
    destruct (Nat.ltb (List.length s') (List.length s)); [|auto].
    assert (G := IHf fuel' s' caps' ltac:(lia)).
    destruct (plus_loop r k fuel s' caps'), (plus_loop r k fuel' s' caps').
    + intros _. discriminate.
    + intros _. exfalso. exact (G ltac:(discriminate) eq_refl).
    + intros _. discriminate.
    + auto.
Qed.

Lemma Matches_consuming :
  forall r m caps caps',
    Matches r m caps caps' -> consuming r = true -> m <> [].
Proof.
  induction 1 as [ | | r1 r2 m1 m2 c0 c1 c2 _ IH1 _ IH2 | i r m c0 c1 _ IH
                 | r m c0 c1 _ IH | r m1 m2 c0 c1 c2 _ IH1 _ _];
    cbn [consuming]; intros Hc; try discriminate.
  - apply orb_prop in Hc as [Hc | Hc].
    + specialize (IH1 Hc). destruct m1; [contradiction | discriminate].
    + specialize (IH2 Hc). destruct m1; [exact IH2 | discriminate].
  - now apply IH.
  - now apply IH.
  - specialize (IH1 Hc). destruct m1; [contradiction | discriminate].
Qed.

(** [regexp.run] finds a match whenever there is one after which the
    continuation succeeds. *)
Lemma run_complete :
  forall r m caps caps',
    Matches r m caps caps' ->
    plus_consuming r = true ->
    forall s' k, k s' caps' <> None -> regexp.run r (m ++ s') caps k <> None.
Proof.
  induction 1 as [ c caps | x caps Hx | r1 r2 m1 m2 c0 c1 c2 _ IH1 _ IH2
                 | i r m c0 c1 _ IH | r m c0 c1 _ IH
                 | r m1 m2 c0 c1 c2 H1 IH1 _ IH2];
    cbn [plus_consuming]; intros Hp s' k Hk.
  - cbn [regexp.run app]. now rewrite String.eqb_refl.
  - cbn [regexp.run app]. apply String.eqb_neq in Hx. now rewrite Hx.
  - apply andb_prop in Hp as [Hp1 Hp2]. cbn [regexp.run]. rewrite <- app_assoc.
    apply IH1; [exact Hp1|]. now apply IH2.
  - cbn [regexp.run]. apply IH; [exact Hp|]. now rewrite consumed_app.
  - apply andb_prop in Hp as [_ Hp]. rewrite run_Plus, plus_loop_S.
    apply IH; [exact Hp|].
    destruct (Nat.ltb (List.length s') (List.length (m ++ s'))); [|exact Hk].
    destruct (plus_loop r k (List.length (m ++ s')) s' c1); [discriminate | exact Hk].
  - assert (Hp' := Hp). apply andb_prop in Hp' as [Hc Hp'].
    pose proof (Matches_consuming r m1 c0 c1 H1 Hc) as Hne.
    rewrite run_Plus, plus_loop_S. rewrite <- app_assoc.
    apply IH1; [exact Hp'|].
    assert (L : List.length (m2 ++ s') < List.length (m1 ++ m2 ++ s')).
    { rewrite (length_app m1). destruct m1; [contradiction | cbn; lia]. }
    apply Nat.ltb_lt in L as L'. rewrite L'.
    specialize (IH2 Hp s' k Hk). rewrite run_Plus in IH2.
    apply (plus_loop_more_fuel r k _ (List.length (m1 ++ m2 ++ s'))) in IH2; [|lia].
    destruct (plus_loop r k (List.length (m1 ++ m2 ++ s')) (m2 ++ s') c1);
      [discriminate | contradiction].
Qed.

Lemma search_unfold :
  forall r s,
    regexp.search r s =
    match regexp.run r s [] (fun rest caps => Some (rest, caps)) with
    | Some (rest, caps) => Some (regexp.consumed s rest, caps)
    | None => match s with
              | [] => None
              | _ :: s' => regexp.search r s'
              end
    end.
Proof. intros r [|x s]; reflexivity. Qed.

Lemma search_complete :
  forall r pre m rest caps,
    Matches r m [] caps ->
    plus_consuming r = true ->
    regexp.search r (pre ++ m ++ rest) <> None.
Proof.
  intros r pre m rest caps HM Hp.
  induction pre as [|x pre IH]; rewrite search_unfold.
  - cbn [app].
    pose proof (run_complete r m [] caps HM Hp rest
                  (fun rest caps => Some (rest, caps))) as C.
    destruct (regexp.run r (m ++ rest) [] _) as [[r0 c0]|]; [discriminate|].
    exfalso. exact (C ltac:(discriminate) eq_refl).
  - destruct (regexp.run r ((x :: pre) ++ m ++ rest) [] _) as [[r0 c0]|];
      [discriminate | exact IH].
Qed.

Lemma first_ascii : forall b, b < 128 -> utf8.first b = None.
Proof.
  intros b Hb. unfold utf8.first, utf8.between.
  repeat match goal with
  | |- context [Nat.leb ?n b] =>
      replace (Nat.leb n b) with false by (symmetry; apply Nat.leb_gt; lia)
  | |- context [Nat.eqb b ?n] =>
      replace (Nat.eqb b n) with false by (symmetry; apply Nat.eqb_neq; lia)
  end.
  reflexivity.
Qed.

Lemma width_ascii :
  forall c t, nat_of_ascii c < 128 -> utf8.width (String c t) = 1.
Proof.
  intros c t Hc. unfold utf8.width, utf8.byte_at. cbn [String.get option_map].
  now rewrite first_ascii.
Qed.

Lemma runes_fuel_ascii :
  forall s fuel,
    Forall (fun c => nat_of_ascii c < 128) (list_ascii_of_string s) ->
    String.length s <= fuel ->
    utf8.runes_fuel fuel s = ascii_runes s.
Proof.
  induction s as [|c t IH]; intros fuel F Hl.
  - destruct fuel; reflexivity.
  - cbn [list_ascii_of_string] in F. inversion F as [|? ? Hc Ft]; subst.
    destruct fuel as [|fuel]; [cbn in Hl; lia|].
    cbn [utf8.runes_fuel]. rewrite width_ascii by assumption.
    cbn [String.substring utf8.drop]. unfold ascii_runes.
    cbn [list_ascii_of_string map]. f_equal.
    + destruct t; reflexivity.
    + apply IH; [assumption | cbn in Hl; lia].
Qed.

Lemma plain_ascii :
  forall s, plain s -> Forall (fun c => nat_of_ascii c < 128) (list_ascii_of_string s).
Proof.
  intros s H. eapply Forall_impl; [|exact H]. now intros c [Hc _].
Qed.

Lemma runes_plain : forall s, plain s -> utf8.runes s = ascii_runes s.
Proof.
  intros s H. unfold utf8.runes. apply runes_fuel_ascii; [now apply plain_ascii | lia].
Qed.

Lemma ascii_runes_app :
  forall a b, ascii_runes (a ++ b) = (ascii_runes a ++ ascii_runes b)%list.
Proof.
  intros a b. unfold ascii_runes. now rewrite list_ascii_of_string_app, map_app.
Qed.

Lemma concat_ascii_runes :
  forall s, String.concat EmptyString (ascii_runes s) = s.
Proof.
  induction s as [|c t IH]; [reflexivity|].
  unfold ascii_runes. cbn [list_ascii_of_string map].
  rewrite concat_empty_cons. fold (ascii_runes t). now rewrite IH.
Qed.

Lemma plain_app : forall a b, plain (a ++ b) <-> plain a /\ plain b.
Proof.
  intros a b. unfold plain. rewrite list_ascii_of_string_app. apply Forall_app.
Qed.

Lemma ascii_runes_no_LF :
  forall s, plain s -> Forall (fun x => x <> String LF EmptyString) (ascii_runes s).
Proof.
  intros s H. unfold ascii_runes. apply Forall_map.
  eapply Forall_impl; [|exact H]. intros c [_ Hc] E. now injection E.
Qed.

Lemma ascii_runes_nil : forall s, ascii_runes s = [] -> s = EmptyString.
Proof. intros [|c t] H; [reflexivity | discriminate H]. Qed.

Lemma Matches_plus_any_intro :
  forall m caps,
    m <> [] -> Forall (fun x => x <> String LF EmptyString) m ->
    Matches (regexp.Plus regexp.AnyCharNotNL) m caps caps.
Proof.
  induction m as [|x m IH]; intros caps Hm F; [contradiction|].
  inversion F as [|? ? Hx Fm]; subst.
  destruct m as [|y m].
  - apply Matches_Plus_once. now constructor.
  - change (x :: y :: m) with ([x] ++ y :: m)%list.
    apply Matches_Plus_more with caps; [now constructor|].
    apply IH; [discriminate | assumption].
Qed.

Lemma Matches_Literal_cons :
  forall c r m caps caps',
    Matches r m caps caps' ->
    Matches (regexp.Concat (regexp.Literal c) r) (String c EmptyString :: m) caps caps'.
Proof.
  intros c r m caps caps' H.
  change (String c EmptyString :: m) with ([String c EmptyString] ++ m)%list.
  apply Matches_Concat with caps; [constructor | exact H].
Qed.

Lemma Matches_Any_cons :
  forall x r m caps caps',
    x <> String LF EmptyString ->
    Matches r m caps caps' ->
    Matches (regexp.Concat regexp.AnyCharNotNL r) (x :: m) caps caps'.
Proof.
  intros x r m caps caps' Hx H.
  change (x :: m) with ([x] ++ m)%list.
  apply Matches_Concat with caps; [now constructor | exact H].
Qed.

Lemma shape_Matches :
  forall ma x mfrom mb mto,
    ma <> [] -> mfrom <> [] -> mb <> [] -> mto <> [] ->
    Forall (fun x => x <> String LF EmptyString)
           (ma ++ [x] ++ mfrom ++ mb ++ mto) ->
    Matches re
      (ma ++ [" "; "p"; x] ++ mfrom ++ [" "; "("] ++ mb
       ++ [")"; " "; "t"; "o"; " "; "t"; "y"; "p"; "e"; " "] ++ mto)%list
      []
      [(2, String.concat EmptyString mto); (1, String.concat EmptyString mfrom)].
Proof.
  intros ma x mfrom mb mto Ha Hf Hb Ht F.
  apply Forall_app in F as [Fa F]. apply Forall_app in F as [Fx F].
  apply Forall_app in F as [Ff F]. apply Forall_app in F as [Fb Ft].
  inversion Fx as [|? ? Hx _]; subst.
  unfold re. cbn [regexp.concat_all regexp.lits map list_ascii_of_string app].
  apply Matches_Concat with []; [now apply Matches_plus_any_intro|].
  do 2 apply Matches_Literal_cons. apply Matches_Any_cons; [exact Hx|].
  apply Matches_Concat with [(1, String.concat EmptyString mfrom)];
    [apply Matches_Capture; now apply Matches_plus_any_intro|].
  do 2 apply Matches_Literal_cons.
  apply Matches_Concat with [(1, String.concat EmptyString mfrom)];
    [now apply Matches_plus_any_intro|].
  do 10 apply Matches_Literal_cons.
  apply Matches_Capture. now apply Matches_plus_any_intro.
Qed.

Lemma plus_consuming_re : plus_consuming re = true.
Proof. reflexivity. Qed.

Lemma matched_shape_plain :
  forall a x from b to post,
    plain (a ++ " p" ++ String x EmptyString ++ from ++ " (" ++ b ++ ") to type "
           ++ to ++ post) ->
    a <> EmptyString -> from <> EmptyString -> b <> EmptyString -> to <> EmptyString ->
    matched (a ++ " p" ++ String x EmptyString ++ from ++ " (" ++ b ++ ") to type "
             ++ to ++ post).
Proof.
  intros a x from b to post Hl Ha Hf Hb Ht.
  assert (Hl' := Hl).
  apply plain_app in Hl' as [Pa Hl']. apply plain_app in Hl' as [_ Hl'].
  apply plain_app in Hl' as [Px Hl']. apply plain_app in Hl' as [Pf Hl'].
  apply plain_app in Hl' as [_ Hl']. apply plain_app in Hl' as [Pb Hl'].
  apply plain_app in Hl' as [_ Hl']. apply plain_app in Hl' as [Pt Pp].
  unfold matched, regexp.FindStringSubmatch. rewrite (runes_plain _ Hl).
  assert (E : ascii_runes (a ++ " p" ++ String x EmptyString ++ from ++ " (" ++ b
                           ++ ") to type " ++ to ++ post)
              = ([] ++ (ascii_runes a ++ [" "; "p"; String x EmptyString]
                        ++ ascii_runes from ++ [" "; "("] ++ ascii_runes b
                        ++ [")"; " "; "t"; "o"; " "; "t"; "y"; "p"; "e"; " "]
                        ++ ascii_runes to)
                 ++ ascii_runes post)%list).
  { unfold ascii_runes. rewrite !list_ascii_of_string_app, !map_app.
    cbn [list_ascii_of_string map app].
    repeat (rewrite <- !app_assoc; cbn [app]). reflexivity. }
  rewrite E.
  assert (S : regexp.search re
                ([] ++ (ascii_runes a ++ [" "; "p"; String x EmptyString]
                        ++ ascii_runes from ++ [" "; "("] ++ ascii_runes b
                        ++ [")"; " "; "t"; "o"; " "; "t"; "y"; "p"; "e"; " "]
                        ++ ascii_runes to)
                 ++ ascii_runes post)%list <> None).
  { eapply search_complete; [|exact plus_consuming_re].
    apply shape_Matches.
    - intros H. now apply ascii_runes_nil in H.
    - intros H. now apply ascii_runes_nil in H.
    - intros H. now apply ascii_runes_nil in H.
    - intros H. now apply ascii_runes_nil in H.
    - apply Forall_app. split; [now apply ascii_runes_no_LF|].
      apply Forall_app. split; [exact (ascii_runes_no_LF (String x EmptyString) Px)|].
      apply Forall_app. split; [now apply ascii_runes_no_LF|].
      apply Forall_app. split; now apply ascii_runes_no_LF. }
  destruct (regexp.search re _) as [[whole caps]|]; [discriminate | contradiction].
Qed.

Lemma plain_runes_single :
  forall line x,
    plain line -> In x (utf8.runes line) -> exists c, x = String c EmptyString.
Proof.
  intros line x H Hin. rewrite (runes_plain line H) in Hin.
  apply in_map_iff in Hin as (c & <- & _). now exists c.
Qed.

(** X10. For a line of ASCII bytes, the pattern matches exactly when the
    line reads: a non-empty text, " p", one byte, a non-empty text, " (",
    a non-empty text, ") to type ", a non-empty text, and anything after
    it.  These are the lines with the marker on which [Compile] does not
    panic. *)
Theorem matched_plain_iff :
  forall line : string,
    plain line ->
    (matched line
     <-> exists a x from b to post,
           line = a ++ " p" ++ String x EmptyString ++ from ++ " (" ++ b
                  ++ ") to type " ++ to ++ post
           /\ a <> EmptyString /\ from <> EmptyString
           /\ b <> EmptyString /\ to <> EmptyString).
Proof.
  intros line Hl. split.
  - intros Hm.
    destruct (FindStringSubmatch_re_shape line) as [E | (whole & from & to & E)];
      [contradiction|].
    apply FindStringSubmatch_re_inv in E
      as (pre & m & rest & caps & Er & HM & _ & _ & _).
    apply re_match_shape in HM
      as (ma & x & mfrom & mb & mto & -> & _ & Ha & Hf & Hb & Ht).
    destruct (plain_runes_single line x Hl) as [c ->].
    { rewrite Er. apply in_or_app. right. apply in_or_app. left.
      apply in_or_app. right. cbn. auto. }
    pose proof (runes_fuel_nonempty (String.length line) line) as F.
    fold (utf8.runes line) in F. rewrite Er in F.
    apply Forall_app in F as [_ F]. apply Forall_app in F as [F _].
    apply Forall_app in F as [Fa F]. apply Forall_app in F as [_ F].
    apply Forall_app in F as [Ff F]. apply Forall_app in F as [_ F].
    apply Forall_app in F as [Fb F]. apply Forall_app in F as [_ Ft].
    exists (String.concat EmptyString pre ++ String.concat EmptyString ma), c,
           (String.concat EmptyString mfrom), (String.concat EmptyString mb),
           (String.concat EmptyString mto), (String.concat EmptyString rest).
    split; [|repeat split; try (now apply concat_nonempty)].
    + rewrite <- (runes_concat line) at 1. rewrite Er.
      rewrite !concat_empty_app, !concat_empty_cons. cbn [String.concat].
      rewrite ?append_empty_r, !append_assoc. reflexivity.
    + intros H. apply (concat_nonempty ma Ha Fa).
      destruct (String.concat EmptyString pre); [exact H | discriminate H].
  - intros (a & x & from & b & to & post & -> & Ha & Hf & Hb & Ht).
    now apply matched_shape_plain.
Qed.

Lemma matched_plain_iff_witness :
  matched "x.go:1:1: cannot convert p_bool (type bool) to type int" <->
  exists a x from b to post,
    "x.go:1:1: cannot convert p_bool (type bool) to type int"
    = a ++ " p" ++ String x EmptyString ++ from ++ " (" ++ b
      ++ ") to type " ++ to ++ post
    /\ a <> EmptyString /\ from <> EmptyString
    /\ b <> EmptyString /\ to <> EmptyString.
Proof.
  apply (matched_plain_iff "x.go:1:1: cannot convert p_bool (type bool) to type int").
  unfold plain. cbn [list_ascii_of_string].
  repeat (constructor; [split; [vm_compute; lia | discriminate]|]). constructor.
Defined.

(** ** What the pattern extracts from a diagnostic *)

Lemma re_unfold :
  re = regexp.Concat (regexp.Plus regexp.AnyCharNotNL)
         (regexp.Concat (regexp.Literal " ")
            (regexp.Concat (regexp.Literal "p")
               (regexp.Concat regexp.AnyCharNotNL re_from_group))).
Proof. reflexivity. Qed.

Lemma run_Literal_cons :
  forall c r s caps k,
    regexp.run (regexp.Concat (regexp.Literal c) r) (String c EmptyString :: s) caps k
    = regexp.run r s caps k.
Proof. intros. cbn [regexp.run]. now rewrite String.eqb_refl. Qed.

Lemma run_Literal_inv :
  forall c r t caps k res,
    regexp.run (regexp.Concat (regexp.Literal c) r) t caps k = Some res ->
    exists t', t = String c EmptyString :: t' /\ regexp.run r t' caps k = Some res.
Proof.
  intros c r [|x t'] caps k res H; cbn [regexp.run] in H; [discriminate H|].
  destruct (String.eqb_spec x (String c EmptyString)) as [-> | _]; [|discriminate H].
  now exists t'.
Qed.

Lemma run_Any_cons :
  forall x r s caps k,
    x <> String LF EmptyString ->
    regexp.run (regexp.Concat regexp.AnyCharNotNL r) (x :: s) caps k
    = regexp.run r s caps k.
Proof.
  intros x r s caps k Hx. cbn [regexp.run].
  apply String.eqb_neq in Hx. now rewrite Hx.
Qed.

Lemma run_Any_inv :
  forall r t caps k res,
    regexp.run (regexp.Concat regexp.AnyCharNotNL r) t caps k = Some res ->
    exists x t', t = x :: t' /\ regexp.run r t' caps k = Some res.
Proof.
  intros r [|x t'] caps k res H; cbn [regexp.run] in H; [discriminate H|].
  destruct (String.eqb x (String LF EmptyString)); [discriminate H|].
  now exists x, t'.
Qed.

(** [.+] is greedy: after one rune it first tries to go on. *)
Lemma run_plus_any_cons :
  forall x s caps k,
    x <> String LF EmptyString ->
    regexp.run (regexp.Plus regexp.AnyCharNotNL) (x :: s) caps k
    = match regexp.run (regexp.Plus regexp.AnyCharNotNL) s caps k with
      | Some m => Some m
      | None => k s caps
      end.
Proof.
  intros x s caps k Hx.
  remember (regexp.run (regexp.Plus regexp.AnyCharNotNL) s caps k) as rhs eqn:Er.
  rewrite run_Plus, plus_loop_S.
  cbn [regexp.run]. apply String.eqb_neq in Hx. rewrite Hx. cbv beta.
  cbn [List.length]. rewrite <- run_Plus.
  match goal with
  | |- context [Nat.ltb ?a ?b] =>
      replace (Nat.ltb a b) with true by (symmetry; apply Nat.ltb_lt; lia)
  end.
  now subst rhs.
Qed.

Lemma run_plus_any_none :
  forall s caps k,
    (forall pre t, pre <> [] -> s = (pre ++ t)%list -> k t caps = None) ->
    regexp.run (regexp.Plus regexp.AnyCharNotNL) s caps k = None.
Proof.
  induction s as [|x s IH]; intros caps k H; [reflexivity|].
  destruct (String.eqb_spec x (String LF EmptyString)) as [-> | Hx].
  - rewrite run_Plus, plus_loop_S. reflexivity.
  - rewrite run_plus_any_cons by assumption. rewrite IH.
    + apply (H [x] s); [discriminate | reflexivity].
    + intros pre t Hp ->. apply (H (x :: pre) t); [discriminate | reflexivity].
Qed.

Lemma run_plus_any_app :
  forall pre s caps k res,
    pre <> [] ->
    Forall (fun x => x <> String LF EmptyString) pre ->
    regexp.run (regexp.Plus regexp.AnyCharNotNL) s caps k = None ->
    k s caps = Some res ->
    regexp.run (regexp.Plus regexp.AnyCharNotNL) (pre ++ s) caps k = Some res.
Proof.
  induction pre as [|x pre IH]; intros s caps k res Hp F Hn Hk; [contradiction|].
  inversion F as [|? ? Hx Fp]; subst. cbn [app].
  rewrite run_plus_any_cons by assumption.
  destruct pre as [|y pre].
  - cbn [app]. now rewrite Hn.
  - rewrite (IH s caps k res); [reflexivity | discriminate | assumption..].
Qed.

Lemma unique_split :
  forall (c : regexp.rune) l1 l2 Z W,
    ~ In c Z -> ~ In c W ->
    (l1 ++ c :: l2 = Z ++ c :: W)%list -> l1 = Z /\ l2 = W.
Proof.
  induction l1 as [|y l1 IH]; intros l2 [|z Z] W HZ HW E; cbn [app] in E.
  - now injection E.
  - injection E as -> _. destruct HZ. now left.
  - injection E as -> E. destruct HW. rewrite <- E. apply in_or_app. right. now left.
  - injection E as -> E. destruct (IH l2 Z W) as [-> ->]; auto.
    intros H. apply HZ. now right.
Qed.

Lemma run_Concat :
  forall r1 r2 s caps k,
    regexp.run (regexp.Concat r1 r2) s caps k
    = regexp.run r1 s caps (fun s1 caps1 => regexp.run r2 s1 caps1 k).
Proof. reflexivity. Qed.

Lemma run_Capture :
  forall i r s caps k,
    regexp.run (regexp.Capture i r) s caps k
    = regexp.run r s caps (fun s' caps' => k s' ((i, regexp.consumed s s') :: caps')).
Proof. reflexivity. Qed.

Lemma run_plus_any_all :
  forall s caps k res,
    s <> [] ->
    Forall (fun x => x <> String LF EmptyString) s ->
    k [] caps = Some res ->
    regexp.run (regexp.Plus regexp.AnyCharNotNL) s caps k = Some res.
Proof.
  intros s caps k res Hs F Hk. rewrite <- (app_nil_r s).
  now apply run_plus_any_app.
Qed.

Section Extraction.

Variables (A F B T : list regexp.rune) (X : regexp.rune).

Hypothesis A_nonempty : A <> [].
Hypothesis F_nonempty : F <> [].
Hypothesis B_nonempty : B <> [].
Hypothesis T_nonempty : T <> [].
Hypothesis A_line : Forall (fun x => x <> String LF EmptyString) A.
Hypothesis X_line : X <> String LF EmptyString.
Hypothesis F_line : Forall (fun x => x <> String LF EmptyString) F.
Hypothesis B_line : Forall (fun x => x <> String LF EmptyString) B.
Hypothesis T_line : Forall (fun x => x <> String LF EmptyString) T.
Hypothesis X_no_space : X <> " ".
Hypothesis X_no_paren : X <> "(".
Hypothesis F_no_space : ~ In " " F.
Hypothesis F_no_paren : ~ In "(" F.
Hypothesis B_no_paren : ~ In "(" B.
Hypothesis T_no_paren : ~ In "(" T.
Hypothesis T_no_close : ~ In ")" T.

Lemma run_last_group :
  forall caps,
    regexp.run (regexp.Capture 2 (regexp.Plus regexp.AnyCharNotNL)) T caps found
    = Some ([], (2, String.concat EmptyString T) :: caps).
Proof.
  intros caps. rewrite run_Capture.
  apply run_plus_any_all; [assumption | assumption |].
  unfold found. pose proof (consumed_app T []) as C. rewrite app_nil_r in C.
  now rewrite C.
Qed.

Lemma run_from_type :
  forall caps,
    regexp.run re_from_type (tail_type T) caps found
    = Some ([], (2, String.concat EmptyString T) :: caps).
Proof.
  intros caps. unfold re_from_type, tail_type.
  cbn [regexp.concat_all regexp.lits map list_ascii_of_string app].
  rewrite !run_Literal_cons. apply run_last_group.
Qed.

Lemma tail_type_no_paren : ~ In "(" (tail_type T).
Proof.
  unfold tail_type. cbn [In]. intros H.
  repeat (destruct H as [H | H]; [discriminate H|]). contradiction.
Qed.

Lemma run_from_paren :
  forall caps,
    regexp.run re_from_paren (tail_paren B T) caps found
    = Some ([], (2, String.concat EmptyString T) :: caps).
Proof.
  intros caps. unfold re_from_paren, tail_paren.
  rewrite !run_Literal_cons, run_Concat.
  apply run_plus_any_app; [assumption | assumption | | apply run_from_type].
  apply run_plus_any_none. intros pre t Hp E.
  destruct (regexp.run re_from_type t caps found) eqn:R; [exfalso | reflexivity].
  unfold re_from_type in R.
  cbn [regexp.concat_all regexp.lits map list_ascii_of_string app] in R.
  apply run_Literal_inv in R as (t' & -> & _).
  unfold tail_type in E. symmetry in E.
  apply (unique_split ")" pre t' []) in E as [-> _]; [now apply Hp | tauto |].
  cbn [In]. intros H.
  repeat (destruct H as [H | H]; [discriminate H|]). contradiction.
Qed.

Lemma run_from_group :
  forall caps,
    regexp.run re_from_group (F ++ tail_paren B T) caps found
    = Some ([], (2, String.concat EmptyString T)
                :: (1, String.concat EmptyString F) :: caps).
Proof.
  intros caps. unfold re_from_group. rewrite run_Concat, run_Capture.
  apply run_plus_any_app; [assumption | assumption | |].
  - apply run_plus_any_none. intros pre t Hp E. cbv beta.
    destruct (regexp.run re_from_paren t _ found) eqn:R; [exfalso | reflexivity].
    unfold re_from_paren in R.
    apply run_Literal_inv in R as (t1 & -> & R).
    apply run_Literal_inv in R as (t2 & -> & _).
    unfold tail_paren in E.
    assert (E' : ((pre ++ [" "]) ++ "(" :: t2 = [" "] ++ "(" :: (B ++ tail_type T))%list)
      by (rewrite <- app_assoc; symmetry; exact E).
    apply unique_split in E' as [E' _].
    + destruct pre as [|y1 [|y2 pre]]; [now apply Hp | discriminate E' | discriminate E'].
    + cbn [In]. intros [H | []]. discriminate H.
    + intros H. apply in_app_or in H as [H | H];
        [now apply B_no_paren | now apply tail_type_no_paren].
  - cbv beta. rewrite consumed_app. apply run_from_paren.
Qed.

Lemma run_var_inv :
  forall t caps k res,
    regexp.run (regexp.Concat (regexp.Literal " ")
                  (regexp.Concat (regexp.Literal "p")
                     (regexp.Concat regexp.AnyCharNotNL re_from_group)))
               t caps k = Some res ->
    exists x' t', t = " " :: "p" :: x' :: t' /\ In "(" t'.
Proof.
  intros t caps k res R.
  apply run_Literal_inv in R as (t1 & -> & R).
  apply run_Literal_inv in R as (t2 & -> & R).
  apply run_Any_inv in R as (x' & t' & -> & R).
  exists x', t'. split; [reflexivity|].
  apply run_sound in R as (m & s' & caps' & -> & HM & _).
  unfold re_from_group, re_from_paren, re_from_type in HM.
  cbn [regexp.concat_all regexp.lits map list_ascii_of_string app] in HM.
  invert_matches.
  rewrite !in_app_iff. cbn [In]. tauto.
Qed.

Lemma run_re_exact :
  regexp.run re (A ++ tail_var X F B T) [] found
  = Some ([], [(2, String.concat EmptyString T); (1, String.concat EmptyString F)]).
Proof.
  rewrite re_unfold, run_Concat.
  apply run_plus_any_app; [assumption | assumption | |].
  - apply run_plus_any_none. intros pre t Hp E. cbv beta.
    match goal with
    | |- ?r = None => destruct r eqn:R; [exfalso | reflexivity]
    end.
    apply run_var_inv in R as (x' & t' & -> & Hin).
    apply in_split in Hin as (t1 & t2 & ->).
    unfold tail_var, tail_paren in E.
    assert (E' : ((pre ++ " " :: "p" :: x' :: t1) ++ "(" :: t2
                  = (" " :: "p" :: X :: F ++ [" "]) ++ "(" :: (B ++ tail_type T))%list).
    { transitivity (pre ++ " " :: "p" :: x' :: t1 ++ "(" :: t2)%list.
      - now rewrite <- app_assoc.
      - rewrite <- E. cbn [app]. now rewrite <- app_assoc. }
    apply unique_split in E' as [E' _].
    + destruct pre as [|y1 pre]; [now apply Hp|].
      cbn [app] in E'. injection E' as _ E'.
      assert (E'' : (pre ++ " " :: "p" :: x' :: t1 = ("p" :: X :: F) ++ " " :: [])%list)
        by exact E'.
      apply unique_split in E'' as [_ E'']; [discriminate E'' | | tauto].
      cbn [In]. intros [H | [H | H]];
        [discriminate H | now apply X_no_space | now apply F_no_space].
    + cbn [In]. rewrite in_app_iff. cbn [In].
      intros [H | [H | [H | [H | [H | []]]]]];
        [discriminate H | discriminate H | now apply X_no_paren
        | now apply F_no_paren | discriminate H].
    + intros H. apply in_app_or in H as [H | H];
        [now apply B_no_paren | now apply tail_type_no_paren].
  - cbv beta. unfold tail_var.
    rewrite !run_Literal_cons, run_Any_cons by assumption.
    apply run_from_group.
Qed.

Lemma search_re_exact :
  regexp.search re (A ++ tail_var X F B T)
  = Some (String.concat EmptyString (A ++ tail_var X F B T),
          [(2, String.concat EmptyString T); (1, String.concat EmptyString F)]).
Proof.
  rewrite search_unfold. pose proof run_re_exact as R. unfold found in R.
  rewrite R. pose proof (consumed_app (A ++ tail_var X F B T) []) as C.
  rewrite app_nil_r in C. now rewrite C.
Qed.

End Extraction.

Lemma In_ascii_runes :
  forall c s, In (String c EmptyString) (ascii_runes s) -> In c (list_ascii_of_string s).
Proof.
  intros c s H. apply in_map_iff in H as (c' & E & H). injection E as ->. exact H.
Qed.

Lemma ascii_runes_nonempty : forall s, s <> EmptyString -> ascii_runes s <> [].
Proof. intros s Hs H. now apply ascii_runes_nil in H. Qed.

Lemma line_extracts :
  forall a x from b to,
    plain (a ++ " p" ++ String x EmptyString ++ from ++ " (" ++ b ++ ") to type " ++ to) ->
    a <> EmptyString -> from <> EmptyString -> b <> EmptyString -> to <> EmptyString ->
    x <> " "%char -> x <> "("%char ->
    without " " from -> without "(" from -> without "(" b ->
    without "(" to -> without ")" to ->
    regexp.FindStringSubmatch re
      (a ++ " p" ++ String x EmptyString ++ from ++ " (" ++ b ++ ") to type " ++ to)
    = [a ++ " p" ++ String x EmptyString ++ from ++ " (" ++ b ++ ") to type " ++ to;
       from; to].
Proof.
  intros a x from b to Hl Ha Hf Hb Ht Hxs Hxp Hfs Hfp Hbp Htp Htc.
  assert (Hl' := Hl).
  apply plain_app in Hl' as [Pa Hl']. apply plain_app in Hl' as [_ Hl'].
  apply plain_app in Hl' as [Px Hl']. apply plain_app in Hl' as [Pf Hl'].
  apply plain_app in Hl' as [_ Hl']. apply plain_app in Hl' as [Pb Hl'].
  apply plain_app in Hl' as [_ Pt].
  assert (E : ascii_runes (a ++ " p" ++ String x EmptyString ++ from ++ " (" ++ b
                           ++ ") to type " ++ to)
              = (ascii_runes a
                 ++ tail_var (String x EmptyString) (ascii_runes from)
                      (ascii_runes b) (ascii_runes to))%list).
  { unfold tail_var, tail_paren, tail_type, ascii_runes.
    rewrite !list_ascii_of_string_app, !map_app.
    cbn [list_ascii_of_string map app].
    repeat (rewrite <- !app_assoc; cbn [app]). reflexivity. }
  unfold regexp.FindStringSubmatch. rewrite (runes_plain _ Hl), E.
  rewrite search_re_exact.
  - change (regexp.NumSubexp re) with 2.
    cbn [seq map regexp.get_cap find fst Nat.eqb].
    rewrite <- E, !concat_ascii_runes. reflexivity.
  - now apply ascii_runes_nonempty.
  - now apply ascii_runes_nonempty.
  - now apply ascii_runes_nonempty.
  - now apply ascii_runes_nonempty.
  - now apply ascii_runes_no_LF.
  - pose proof (ascii_runes_no_LF _ Px) as F. now inversion F.
  - now apply ascii_runes_no_LF.
  - now apply ascii_runes_no_LF.
  - now apply ascii_runes_no_LF.
  - intros H. injection H as H. now apply Hxs.
  - intros H. injection H as H. now apply Hxp.
  - intros H. now apply In_ascii_runes in H.
  - intros H. now apply In_ascii_runes in H.
  - intros H. now apply In_ascii_runes in H.
  - intros H. now apply In_ascii_runes in H.
  - intros H. now apply In_ascii_runes in H.
Qed.

(** X11. On an ASCII line made of a non-empty text, " p", one byte that
    is neither a space nor "(", a name without space and "(", " (", a
    description without "(", ") to type " and a name without parentheses,
    the match is the whole line and the two groups are exactly the two
    names: the greedy [.+] before " p" stops at the last " p" from which
    the rest matches, whatever the text before it contains. *)
Theorem FindStringSubmatch_extracts_names :
  forall (a : string) (x : ascii) (from b to : string),
    plain (a ++ " p" ++ String x EmptyString ++ from ++ " (" ++ b ++ ") to type " ++ to) ->
    a <> EmptyString -> from <> EmptyString -> b <> EmptyString -> to <> EmptyString ->
    x <> " "%char -> x <> "("%char ->
    without " " from -> without "(" from -> without "(" b ->
    without "(" to -> without ")" to ->
    regexp.FindStringSubmatch re
      (a ++ " p" ++ String x EmptyString ++ from ++ " (" ++ b ++ ") to type " ++ to)
    = [a ++ " p" ++ String x EmptyString ++ from ++ " (" ++ b ++ ") to type " ++ to;
       from; to]
    /\ pair_of_line
         (a ++ " p" ++ String x EmptyString ++ from ++ " (" ++ b ++ ") to type " ++ to)
       = {| From := from; To := to |}.
Proof.
  intros a x from b to Hl Ha Hf Hb Ht Hxs Hxp Hfs Hfp Hbp Htp Htc.
  pose proof (line_extracts a x from b to Hl Ha Hf Hb Ht Hxs Hxp Hfs Hfp Hbp Htp Htc) as E.
  split; [exact E|]. unfold pair_of_line. now rewrite E.
Qed.

Ltac solve_plain :=
  unfold plain, diagnostic; cbn [list_ascii_of_string append];
  repeat (constructor; [split; [vm_compute; lia | discriminate]|]); constructor.

Ltac solve_without :=
  let H := fresh "H" in
  unfold without; cbn [list_ascii_of_string]; intros H; cbn [In] in H;
  repeat (destruct H as [H | H]; [discriminate H|]); exact H.

Lemma FindStringSubmatch_extracts_names_witness :
  regexp.FindStringSubmatch re
    ("my p_tests (old)/x.go:3:7: cannot convert" ++ " p" ++ String "_" EmptyString
     ++ "string" ++ " (" ++ "variable of type string" ++ ") to type " ++ "int")
  = ["my p_tests (old)/x.go:3:7: cannot convert" ++ " p" ++ String "_" EmptyString
     ++ "string" ++ " (" ++ "variable of type string" ++ ") to type " ++ "int";
     "string"; "int"]
  /\ pair_of_line
       ("my p_tests (old)/x.go:3:7: cannot convert" ++ " p" ++ String "_" EmptyString
        ++ "string" ++ " (" ++ "variable of type string" ++ ") to type " ++ "int")
     = {| From := "string"; To := "int" |}.
Proof.
  apply (FindStringSubmatch_extracts_names
           "my p_tests (old)/x.go:3:7: cannot convert" "_" "string"
           "variable of type string" "int");
    try discriminate; try solve_without.
  solve_plain.
Defined.

(** ** [Compile] on the output of the compiler *)

Lemma split_from_line :
  forall l sep cur,
    without sep l ->
    strings.split_from l sep cur = [string_of_list_ascii (List.rev cur) ++ l].
Proof.
  induction l as [|c l IH]; intros sep cur H; cbn [strings.split_from].
  - now rewrite append_empty_r.
  - destruct (Ascii.eqb_spec c sep) as [-> | Hne].
    + destruct H. cbn. now left.
    + rewrite IH.
      * now rewrite string_of_rev_cons, append_assoc.
      * intros Hin. apply H. cbn. now right.
Qed.

Lemma split_from_more :
  forall l sep cur rest,
    without sep l ->
    strings.split_from (l ++ String sep rest) sep cur
    = (string_of_list_ascii (List.rev cur) ++ l) :: strings.split_from rest sep [].
Proof.
  induction l as [|c l IH]; intros sep cur rest H; cbn [strings.split_from append].
  - rewrite Ascii.eqb_refl. now rewrite append_empty_r.
  - destruct (Ascii.eqb_spec c sep) as [-> | Hne].
    + destruct H. cbn. now left.
    + rewrite IH.
      * now rewrite string_of_rev_cons, append_assoc.
      * intros Hin. apply H. cbn. now right.
Qed.

(** Splitting the join of lines without the separator gives the lines. *)
Lemma Split_concat :
  forall ls sep,
    ls <> [] -> Forall (without sep) ls ->
    strings.Split (String.concat (String sep EmptyString) ls) sep = ls.
Proof.
  intros ls sep Hne F. unfold strings.Split.
  induction F as [|l ls Hl F IH]; [contradiction|].
  destruct ls as [|l' ls].
  - cbn [String.concat]. now rewrite split_from_line.
  - change (String.concat (String sep EmptyString) (l :: l' :: ls))
      with (l ++ String sep (String.concat (String sep EmptyString) (l' :: ls))).
    rewrite split_from_more by assumption. cbn [List.rev string_of_list_ascii append].
    f_equal. apply IH. discriminate.
Qed.

Lemma plain_without_LF : forall s, plain s -> without LF s.
Proof.
  intros s H Hin. unfold plain in H. rewrite Forall_forall in H.
  now destruct (H LF Hin) as [_ Hc].
Qed.

Lemma diagnostic_shape :
  forall position from described to,
    diagnostic position from described to
    = (position ++ ": cannot convert") ++ " p" ++ String "_" EmptyString ++ from
      ++ " (" ++ described ++ ") to type " ++ to.
Proof.
  intros. unfold diagnostic. now rewrite append_assoc.
Qed.

Lemma diagnostic_marked :
  forall position from described to,
    strings.Contains (diagnostic position from described to) "cannot convert" = true.
Proof.
  intros. apply strings_Contains_iff.
  exists (position ++ ": "),
         (" p_" ++ from ++ " (" ++ described ++ ") to type " ++ to).
  unfold diagnostic. now rewrite append_assoc.
Qed.

Lemma diagnostic_extracts :
  forall position from described to,
    expected (Conversion position from described to) ->
    matched (diagnostic position from described to)
    /\ pair_of_line (diagnostic position from described to)
       = {| From := from; To := to |}.
Proof.
  intros position from described to (Hp & Hf & Hd & Ht & Hfs & Hfp & Hdp & Htp & Htc).
  unfold matched, pair_of_line. rewrite diagnostic_shape in *.
  assert (E := line_extracts (position ++ ": cannot convert") "_" from described to Hp).
  rewrite E; try assumption; try discriminate.
  - split; [discriminate | reflexivity].
  - destruct position; discriminate.
Qed.

Lemma expected_without_LF :
  forall l, expected l -> without LF (render l).
Proof.
  intros [text | position from described to]; cbn [expected render].
  - now intros [H _].
  - intros (H & _). now apply plain_without_LF.
Qed.

Lemma extract_expected :
  forall ls cfs0,
    Forall expected ls ->
    extract (conversion_lines (map render ls)) cfs0 = Ok (cfs0 ++ failures ls)%list.
Proof.
  induction ls as [|l ls IH]; intros cfs0 F.
  - cbn. now rewrite app_nil_r.
  - inversion F as [|? ? Hl Fr]; subst.
    destruct l as [text | position from described to];
      cbn [map render conversion_lines failures].
    + destruct Hl as [_ ->]. now apply IH.
    + rewrite diagnostic_marked.
      destruct (diagnostic_extracts position from described to Hl) as [Hm Hp].
      rewrite extract_step_matched by assumption. rewrite Hp, IH by assumption.
      now rewrite <- app_assoc.
Qed.

Lemma failures_In :
  forall ls from to,
    In {| From := from; To := to |} (failures ls)
    <-> exists position described, In (Conversion position from described to) ls.
Proof.
  induction ls as [|[text | position f described t] ls IH]; intros from to;
    cbn [failures In].
  - split; [tauto | intros (p & d & [])].
  - rewrite IH. split.
    + intros (p & d & H). exists p, d. now right.
    + intros (p & d & [H | H]); [discriminate H | now exists p, d].
  - rewrite IH. split.
    + intros [H | (p & d & H)].
      * injection H as -> ->. exists position, described. now left.
      * exists p, d. now right.
    + intros (p & d & [H | H]).
      * injection H as _ -> _ ->. now left.
      * right. now exists p, d.
Qed.

(** X12. When the build ends with status 2 (or 0) and its output is made
    of conversion diagnostics naming types without spaces and parentheses
    and of other lines without "cannot convert", [Compile] returns exactly
    the pairs of the diagnostics, in order; [Main] then logs the report of
    these pairs, in which a pair of catalog names is marked not-convertible
    exactly when the output has a diagnostic for it. *)
Theorem Compile_on_compiler_output :
  forall (w : World) (ls : list Line),
    proceeds (build_outcome w) ->
    ls <> [] ->
    Forall expected ls ->
    build_stderr w = String.concat (String LF EmptyString) (map render ls) ->
    Compile w = Ok (failures ls)
    /\ (forall fx fx1,
          Generate w fx = (Ok tt, fx1) ->
          Main w fx
          = (Ok tt, {| output_file := output_file fx1;
                       logged := (logged fx1 ++ Report_lines (failures ls))%list |}))
    /\ (forall from to,
          In from Primitives -> In to Primitives ->
          (In (verdict_line from to not_convertible) (Report_lines (failures ls))
           <-> exists position described,
                 In (Conversion position from described to) ls)).
Proof.
  intros w ls Hp Hne F Hs.
  assert (C : Compile w = Ok (failures ls)).
  { rewrite (Compile_proceeds w Hp). unfold marked_lines. rewrite Hs.
    rewrite Split_concat.
    - now rewrite extract_expected.
    - destruct ls; [contradiction | discriminate].
    - apply Forall_map. eapply Forall_impl; [|exact F]. apply expected_without_LF. }
  split; [exact C|]. split.
  - intros fx fx1 HG. now rewrite (Main_after_Generate w fx fx1 HG), C.
  - intros from to Hf Ht. rewrite <- failures_In, <- Contains_pair_iff.
    rewrite Report_lines_verdict by auto. unfold marker.
    destruct (Contains (failures ls) from to); cbn [negb]; split; intros H;
      reflexivity || discriminate H.
Qed.

Lemma Compile_on_compiler_output_witness :
  Compile
    {| parsed_template := inl example_template;
       create_error := None;
       write_limit := None;
       now := "2020-11-22T10:00:00Z";
       args0 := "./go-conversions";
       build_outcome := exec.Exited 2;
       build_stderr :=
         String.concat (String LF EmptyString)
           (map render
              [Other "# command-line-arguments";
               Conversion "./output/conversions.go:9:6" "bool" "variable of type bool" "int";
               Conversion "./output/conversions.go:31:6" "string" "variable of type string"
                          "float64";
               Other EmptyString]) |}
  = Ok (failures
          [Other "# command-line-arguments";
           Conversion "./output/conversions.go:9:6" "bool" "variable of type bool" "int";
           Conversion "./output/conversions.go:31:6" "string" "variable of type string"
                      "float64";
           Other EmptyString]).
Proof.
  apply (Compile_on_compiler_output
    {| parsed_template := inl example_template;
       create_error := None;
       write_limit := None;
       now := "2020-11-22T10:00:00Z";
       args0 := "./go-conversions";
       build_outcome := exec.Exited 2;
       build_stderr :=
         String.concat (String LF EmptyString)
           (map render
              [Other "# command-line-arguments";
               Conversion "./output/conversions.go:9:6" "bool" "variable of type bool" "int";
               Conversion "./output/conversions.go:31:6" "string" "variable of type string"
                          "float64";
               Other EmptyString]) |}).
  - left. reflexivity.
  - discriminate.
  - repeat constructor; try discriminate; try solve_without; try solve_plain.
  - reflexivity.
Defined.

(** ** The lines [Compile] examines *)

Lemma string_of_list_ascii_app :
  forall a b,
    string_of_list_ascii (a ++ b) = string_of_list_ascii a ++ string_of_list_ascii b.
Proof.
  induction a as [|c a IH]; intros b; cbn; [reflexivity | now rewrite IH].
Qed.

Lemma split_from_pieces :
  forall s sep cur,
    ~ In sep cur ->
    Forall (without sep) (strings.split_from s sep cur).
Proof.
  induction s as [|c s IH]; intros sep cur Hc; cbn [strings.split_from].
  - constructor; [|constructor]. unfold without.
    rewrite list_ascii_of_string_of_list_ascii. now rewrite <- in_rev.
  - destruct (Ascii.eqb_spec c sep) as [-> | Hne].
    + constructor; [|apply IH; tauto]. unfold without.
      rewrite list_ascii_of_string_of_list_ascii. now rewrite <- in_rev.
    + apply IH. cbn [In]. intros [H | H]; [now apply Hne | now apply Hc].
Qed.

(** X13. The lines [Compile] examines are the pieces of the captured
    output between line feeds: there is at least one, none contains a line
    feed, joined by line feeds they give the output back, and the output of
    lines joined by line feeds is split into these lines again. *)
Theorem Compile_lines_of_stderr :
  forall stderrContent : string,
    strings.Split stderrContent LF <> []
    /\ Forall (without LF) (strings.Split stderrContent LF)
    /\ String.concat (String LF EmptyString) (strings.Split stderrContent LF)
       = stderrContent
    /\ (forall lines,
          lines <> [] -> Forall (without LF) lines ->
          strings.Split (String.concat (String LF EmptyString) lines) LF = lines).
Proof.
  intros stderrContent. split; [apply split_from_not_nil|].
  split; [apply split_from_pieces; tauto|].
  split; [apply strings_Split_join|].
  intros lines Hne F. now apply Split_concat.
Qed.

(** ** Entries add up *)

(** X14. The failures of two sets add up in the report: for catalog names,
    the report of the concatenation marks a pair not-convertible exactly
    when the report of one of the two sets does.  So an entry appended by a
    later diagnostic never turns an earlier not-convertible verdict back. *)
Theorem Report_of_appended_sets :
  forall (cfs1 cfs2 : ConversionFailures) (from to : string),
    In from Primitives -> In to Primitives ->
    (In (verdict_line from to not_convertible) (Report_lines (cfs1 ++ cfs2)%list)
     <-> In (verdict_line from to not_convertible) (Report_lines cfs1)
         \/ In (verdict_line from to not_convertible) (Report_lines cfs2)).
Proof.
  intros cfs1 cfs2 from to Hf Ht.
  rewrite !Report_lines_verdict by auto. unfold marker. rewrite Contains_app.
  destruct (Contains cfs1 from to), (Contains cfs2 from to); cbn [orb negb];
    split; intros H; auto; destruct H as [H | H]; auto.
Qed.

Lemma Report_of_appended_sets_witness :
  In (verdict_line "bool" "int" not_convertible)
     (Report_lines ([{| From := "int"; To := "bool" |}]
                    ++ [{| From := "bool"; To := "int" |}])%list)
  <-> In (verdict_line "bool" "int" not_convertible)
         (Report_lines [{| From := "int"; To := "bool" |}])
      \/ In (verdict_line "bool" "int" not_convertible)
            (Report_lines [{| From := "bool"; To := "int" |}]).
Proof.
  apply (Report_of_appended_sets
           [{| From := "int"; To := "bool" |}] [{| From := "bool"; To := "int" |}]
           "bool" "int"); simpl; tauto.
Defined.

(** ** The fatal message *)

(** X15. When the program was started by a path that ends in a slash and
    a file name, and [Main] returns an error, [main] ends in
    [logrus.Fatal] with the message made of that file name, ": " and the
    error: the directory of the program is not part of the message. *)
Theorem main_fatal_message :
  forall (w : World) (elapsed : string) (fx : Effects) (dir name e : string),
    args0 w = dir ++ "/" ++ name ->
    name <> EmptyString ->
    without "/" name ->
    fst (Main w (Info fx "starting")) = Err e ->
    fst (main w elapsed fx) = Fatal (name ++ ": " ++ e).
Proof.
  intros w elapsed fx dir name e Ha Hn Hs HM. unfold main.
  destruct (Main w (Info fx "starting")) as [[[]|e1|p] fx1]; cbn [fst] in *;
    try discriminate HM.
  injection HM as ->. unfold Wrap. rewrite Ha, Base_of_joined; [reflexivity | exact Hn |].
  apply Forall_forall. intros c Hc E. subst c. now apply Hs.
Qed.

Lemma main_fatal_message_witness :
  fst (main (example_world "2020-11-22T10:00:00Z" (exec.Exited 1) EmptyString)
            "1.5s" no_effects)
  = Fatal ("go-conversions" ++ ": "
           ++ "compiling: unexpected error while running compilation command: exit status 1").
Proof.
  apply (main_fatal_message
           (example_world "2020-11-22T10:00:00Z" (exec.Exited 1) EmptyString)
           "1.5s" no_effects "." "go-conversions").
  - reflexivity.
  - discriminate.
  - solve_without.
  - reflexivity.
Defined.

(** * The failure set and the lines of the diagnostics *)

(** The first loop of [Compile] keeps the lines with the marker as
    [List.filter] does: in order, each as often as it occurs. *)
Lemma conversion_lines_filter :
  forall lines, conversion_lines lines = filter has_marker lines.
Proof.
  induction lines as [|l lines IH]; cbn [conversion_lines filter]; [reflexivity|].
  unfold has_marker at 1. destruct (strings.Contains l "cannot convert"); now rewrite IH.
Qed.

Lemma Compile_all_matched :
  forall w,
    proceeds (build_outcome w) ->
    Forall matched (filter has_marker (strings.Split (build_stderr w) LF)) ->
    Compile w
    = Ok (map pair_of_line (filter has_marker (strings.Split (build_stderr w) LF))).
Proof.
  intros w Hp Hm. rewrite (Compile_proceeds w Hp). unfold marked_lines.
  rewrite conversion_lines_filter. now rewrite extract_all_matched.
Qed.


Lemma verdict_convertible_iff :
  forall cfs from to,
    In from Primitives -> In to Primitives ->
    (In (verdict_line from to convertible) (Report_lines cfs)
     <-> Contains cfs from to = false).
Proof.
  intros cfs from to Hf Ht. rewrite Report_lines_verdict by auto. unfold marker.
  destruct (Contains cfs from to); cbn [negb]; split; intros H;
    reflexivity || discriminate H || (now apply marks_differ in H)
    || (symmetry in H; now apply marks_differ in H).
Qed.

Lemma verdict_not_convertible_iff :
  forall cfs from to,
    In from Primitives -> In to Primitives ->
    (In (verdict_line from to not_convertible) (Report_lines cfs)
     <-> Contains cfs from to = true).
Proof.
  intros cfs from to Hf Ht. rewrite Report_lines_verdict by auto. unfold marker.
  destruct (Contains cfs from to); cbn [negb]; split; intros H;
    reflexivity || discriminate H || (now apply marks_differ in H)
    || (symmetry in H; now apply marks_differ in H).
Qed.


(** ** One entry per matching line *)

(** Against C4 as stated: one marked line that the pattern matches, naming
    a type outside the catalog, gives a failure set with one entry, and
    yet no line of the report carries the not-convertible mark. *)
Lemma entry_outside_catalog_not_reported :
  marked_lines (example_world "2020-11-22T10:00:00Z" (exec.Exited 2)
     "./output/conversions.go:9:6: cannot convert p_error (variable of type error) to type int")
  = ["./output/conversions.go:9:6: cannot convert p_error (variable of type error) to type int"]
  /\ matched
       "./output/conversions.go:9:6: cannot convert p_error (variable of type error) to type int"
  /\ Compile (example_world "2020-11-22T10:00:00Z" (exec.Exited 2)
       "./output/conversions.go:9:6: cannot convert p_error (variable of type error) to type int")
     = Ok [{| From := "error"; To := "int" |}]
  /\ ~ (exists l,
          In l (Report_lines [{| From := "error"; To := "int" |}])
          /\ strings.Contains l not_convertible = true).
Proof.
  split; [reflexivity|]. split; [vm_compute; discriminate|].
  split; [reflexivity|].
  intros (l & Hl & Hc).
  assert (C : forallb (fun l => negb (strings.Contains l not_convertible))
                (Report_lines [{| From := "error"; To := "int" |}]) = true)
    by (vm_compute; reflexivity).
  rewrite forallb_forall in C. apply C in Hl. rewrite Hc in Hl. discriminate Hl.
Qed.

(** C4, amended. When the build ends as expected and every line of its
    output that contains the marker matches the pattern, [Compile] returns
    one entry per such line of the output, in the order of the lines, none
    dropped and none merged: the i-th entry is the pair of the i-th such
    line, and there are as many entries as such lines.  The report of that
    set marks a pair of catalog names not-convertible exactly when the pair
    is one of the entries; an entry that names a type outside the catalog
    has no line in the report. *)
Theorem Compile_one_entry_per_line :
  forall (w : World) (lines : list string),
    proceeds (build_outcome w) ->
    lines <> [] ->
    Forall (without LF) lines ->
    build_stderr w = String.concat (String LF EmptyString) lines ->
    Forall matched (filter has_marker lines) ->
    exists cfs,
      Compile w = Ok cfs
      /\ cfs = map pair_of_line (filter has_marker lines)
      /\ List.length cfs = List.length (filter has_marker lines)
      /\ (forall i line,
            nth_error (filter has_marker lines) i = Some line ->
            nth_error cfs i = Some (pair_of_line line))
      /\ (forall from to,
            In from Primitives -> In to Primitives ->
            (In (verdict_line from to not_convertible) (Report_lines cfs)
             <-> In {| From := from; To := to |} cfs)).
Proof.
  intros w lines Hp Hne Hl Hs Hm.
  assert (S : strings.Split (build_stderr w) LF = lines)
    by (rewrite Hs; now apply Split_concat).
  exists (map pair_of_line (filter has_marker lines)).
  split; [|split; [reflexivity|split; [|split]]].
  - rewrite <- S in Hm |- *. now apply Compile_all_matched.
  - apply length_map.
  - intros i line H. now rewrite nth_error_map, H.
  - intros from to Hf Ht. rewrite <- Contains_pair_iff.
    now apply verdict_not_convertible_iff.
Qed.

Lemma Compile_one_entry_per_line_witness :
  Compile (example_world "2020-11-22T10:00:00Z" (exec.Exited 2)
             (String.concat (String LF EmptyString) example_diagnostics))
  = Ok [{| From := "bool"; To := "uint8" |};
        {| From := "string"; To := "bool" |};
        {| From := "bool"; To := "uint8" |}].
Proof.
  destruct (Compile_one_entry_per_line
              (example_world "2020-11-22T10:00:00Z" (exec.Exited 2)
                 (String.concat (String LF EmptyString) example_diagnostics))
              example_diagnostics) as (cfs & E & -> & _).
  - left. reflexivity.
  - discriminate.
  - repeat constructor; solve_without.
  - reflexivity.
  - apply Forall_forall. intros line [<- | [<- | [<- | []]]]; vm_compute; discriminate.
  - exact E.
Defined.

(** ** Exit status 0 *)




(** ** Self-pairs *)

(** C6. The compiler raises no "cannot convert" diagnostic for the
    conversion of a type to itself, so the failure set has no entry whose
    two names are the same.  For every such set and every catalog name
    [A], the pair (A, A) is reported convertible: [Contains] does not find
    it, its line in the report, the one at place [20 * i + 1 + i] for the
    i-th name, carries the convertible mark, no line reports it
    not-convertible, and a run that gets this set from [Compile] logs that
    line at that place after what was logged before. *)
Theorem self_pairs_convertible :
  forall cfs : ConversionFailures,
    (forall cf, In cf cfs -> From cf <> To cf) ->
    forall A : string,
      In A Primitives ->
      Contains cfs A A = false
      /\ In (verdict_line A A convertible) (Report_lines cfs)
      /\ ~ In (verdict_line A A not_convertible) (Report_lines cfs)
      /\ (forall i,
            nth_error Primitives i = Some A ->
            nth_error (Report_lines cfs) (20 * i + 1 + i)
            = Some (verdict_line A A convertible))
      /\ (forall w fx fx1 i,
            Generate w fx = (Ok tt, fx1) ->
            Compile w = Ok cfs ->
            nth_error Primitives i = Some A ->
            fst (Main w fx) = Ok tt
            /\ nth_error (logged (snd (Main w fx)))
                  (List.length (logged fx1) + (20 * i + 1 + i))
               = Some (verdict_line A A convertible)).
Proof.
  intros cfs Hne A HA.
  assert (C : Contains cfs A A = false).
  { apply Contains_false_iff. intros (cf & Hin & Hf & Ht).
    apply (Hne cf Hin). congruence. }
  assert (N : forall i, nth_error Primitives i = Some A ->
                nth_error (Report_lines cfs) (20 * i + 1 + i)
                = Some (verdict_line A A convertible)).
  { intros i Hi. rewrite (Report_lines_nth_verdict cfs i i A A Hi Hi).
    unfold marker. now rewrite C. }
  split; [exact C|]. split; [|split; [|split]].
  - now apply verdict_convertible_iff.
  - rewrite verdict_not_convertible_iff by assumption. now rewrite C.
  - exact N.
  - intros w fx fx1 i HG HC Hi.
    rewrite (Main_after_Generate w fx fx1 HG), HC. cbn [fst snd logged].
    split; [reflexivity|].
    rewrite nth_error_app2 by lia.
    replace (List.length (logged fx1) + (20 * i + 1 + i) - List.length (logged fx1))
      with (20 * i + 1 + i) by lia.
    now apply N.
Qed.

Lemma self_pairs_convertible_witness :
  Contains [{| From := "bool"; To := "uint8" |};
            {| From := "string"; To := "bool" |};
            {| From := "bool"; To := "uint8" |}] "bool" "bool" = false
  /\ In (verdict_line "bool" "bool" convertible)
        (Report_lines [{| From := "bool"; To := "uint8" |};
                       {| From := "string"; To := "bool" |};
                       {| From := "bool"; To := "uint8" |}]).
Proof.
  destruct (self_pairs_convertible
              [{| From := "bool"; To := "uint8" |};
               {| From := "string"; To := "bool" |};
               {| From := "bool"; To := "uint8" |}]) with (A := "bool")
    as (C & I & _).
  - intros cf [<- | [<- | [<- | []]]]; discriminate.
  - left. reflexivity.
  - split; [exact C | exact I].
Defined.
